(** * Photo gallery hook: a shallow embedding of [usePhotoGallery_new.ts]

    The development follows [src/hooks/usePhotoGallery_new.ts]:

    - [JsString], [Base64] and [Json] model the JavaScript built-ins the hook
      calls ([String.prototype.lastIndexOf], [substr], [FileReader]'s data
      URL, [JSON.stringify], [JSON.parse]);
    - [Async] is the syntax of an [async] function body: awaited calls,
      calls whose promise is dropped, synchronous queries and [setPhotos];
    - [World] holds the three tiers (React state, Preferences, Filesystem)
      together with the index writes that were issued and not yet completed,
      and [run] executes a body against an environment [Env] that plays the
      external collaborators (camera, clock, platform, network, reader);
    - the hook's functions [base64FromPath], [savePicture], [deletePhoto],
      [takePhoto] and [loadSaved] are transcribed statement by statement. *)

From Stdlib Require Import ZArith NArith Ascii String List Lia DecimalString.
From Stdlib Require Import Strings.Byte.
From stdpp Require Import base option gmap strings fin_maps.

Local Open Scope Z_scope.

(* ===================================================================== *)
(** ** JavaScript string primitives used by the hook *)
(* ===================================================================== *)

Module JsString.

(** [startsWith s pat]: [pat] is a prefix of [s]. *)
Fixpoint startsWith (s pat : string) : bool :=
  match pat, s with
  | EmptyString, _ => true
  | String _ _, EmptyString => false
  | String p pat', String c s' => if Ascii.eqb c p then startsWith s' pat' else false
  end.

(** [lastIndexOf_from s pat i]: index (counted from [i] for the head of
    [s]) of the last occurrence of [pat] in [s], or [-1]. *)
Fixpoint lastIndexOf_from (s pat : string) (i : Z) : Z :=
  match s with
  | EmptyString => if startsWith s pat then i else -1
  | String _ s' =>
      let r := lastIndexOf_from s' pat (i + 1) in
      if 0 <=? r then r else if startsWith s pat then i else -1
  end.

(** [s.lastIndexOf(pat)] *)
Definition lastIndexOf (s pat : string) : Z := lastIndexOf_from s pat 0.

Fixpoint drop (n : nat) (s : string) : string :=
  match n, s with
  | O, _ => s
  | S _, EmptyString => EmptyString
  | S n', String _ s' => drop n' s'
  end.

(** [s.substr(start)] with the length argument omitted: a negative
    [start] counts from the end, and the start is clamped to the string. *)
Definition substr (s : string) (start : Z) : string :=
  let len := Z.of_nat (String.length s) in
  let from := if start <? 0 then Z.max (len + start) 0 else Z.min start len in
  drop (Z.to_nat from) s.

(** [String(n)] for a non-negative integer: its decimal digits. *)
Definition ofNumber (n : N) : string := NilEmpty.string_of_uint (N.to_uint n).

(** Occurrence of a character. *)
Fixpoint contains (c : ascii) (s : string) : bool :=
  match s with
  | EmptyString => false
  | String a s' => if Ascii.eqb a c then true else contains c s'
  end.

End JsString.

(* ===================================================================== *)
(** ** Data model *)
(* ===================================================================== *)

(** [interface UserPhoto { filepath: string; webviewPath?: string }] *)
Record UserPhoto : Type := mkUserPhoto {
  filepath : string;
  webviewPath : option string
}.

(** [const PHOTO_STORAGE = 'photos'] *)
Definition PHOTO_STORAGE : string := "photos".

(** The fields of Capacitor's [Photo] that the hook reads; both are
    optional in the plugin's declaration ([photo.path!], [photo.webPath!]). *)
Record Photo : Type := mkPhoto {
  path : option string;
  webPath : option string
}.

(** A [Blob]: its MIME type and its bytes. *)
Record Blob : Type := mkBlob {
  blob_type : string;
  blob_bytes : list byte
}.

(* ===================================================================== *)
(** ** Base64 and data URLs ([FileReader.readAsDataURL]) *)
(* ===================================================================== *)

Module Base64.

Definition alphabet : string :=
  "ABCDEFGHIJKLMNOPQRSTUVWXYZabcdefghijklmnopqrstuvwxyz0123456789+/".

(** The character of a 6-bit group (the group is taken modulo 64). *)
Definition digit (n : N) : ascii :=
  match String.get (N.to_nat (n mod 64)) alphabet with
  | Some c => c
  | None => "A"%char
  end.

Definition pad : ascii := "="%char.

(** Three bytes give four characters; a tail of one or two bytes is
    padded with [=]. *)
Fixpoint encode (bs : list byte) : string :=
  match bs with
  | [] => EmptyString
  | [a] =>
      let n := (Byte.to_N a * 65536)%N in
      String (digit (n / 262144)) (String (digit (n / 4096))
        (String pad (String pad EmptyString)))
  | [a; b] =>
      let n := (Byte.to_N a * 65536 + Byte.to_N b * 256)%N in
      String (digit (n / 262144)) (String (digit (n / 4096))
        (String (digit (n / 64)) (String pad EmptyString)))
  | a :: b :: c :: rest =>
      let n := (Byte.to_N a * 65536 + Byte.to_N b * 256 + Byte.to_N c)%N in
      String (digit (n / 262144)) (String (digit (n / 4096))
        (String (digit (n / 64)) (String (digit n) (encode rest))))
  end.

(** The 6-bit value of a character of the alphabet. *)
Fixpoint index_from (c : ascii) (s : string) (i : N) : option N :=
  match s with
  | EmptyString => None
  | String a s' => if Ascii.eqb a c then Some i else index_from c s' (i + 1)%N
  end.

Definition value (c : ascii) : option N := index_from c alphabet 0%N.

Definition byte_of (n : N) : option byte := Byte.of_N (n mod 256).

(** Four characters give three bytes; [=] padding is accepted only in the
    last group. *)
Fixpoint decode (s : string) : option (list byte) :=
  match s with
  | EmptyString => Some []
  | String c1 (String c2 (String c3 (String c4 rest))) =>
      match value c1, value c2 with
      | Some v1, Some v2 =>
          if Ascii.eqb c4 pad then
            match rest with
            | EmptyString =>
                if Ascii.eqb c3 pad then
                  let n := (v1 * 262144 + v2 * 4096)%N in
                  b1 ← byte_of (n / 65536); Some [b1]
                else
                  v3 ← value c3;
                  let n := (v1 * 262144 + v2 * 4096 + v3 * 64)%N in
                  b1 ← byte_of (n / 65536);
                  b2 ← byte_of (n / 256);
                  Some [b1; b2]
            | String _ _ => None
            end
          else
            v3 ← value c3;
            v4 ← value c4;
            let n := (v1 * 262144 + v2 * 4096 + v3 * 64 + v4)%N in
            b1 ← byte_of (n / 65536);
            b2 ← byte_of (n / 256);
            b3 ← byte_of n;
            tl ← decode rest;
            Some (b1 :: b2 :: b3 :: tl)
      | _, _ => None
      end
  | _ => None
  end.

End Base64.

(** The result of [reader.readAsDataURL(blob)] on a conforming reader. *)
Definition dataURL (b : Blob) : string :=
  "data:" +:+ blob_type b +:+ ";base64," +:+ Base64.encode (blob_bytes b).

(** The header [loadSaved] puts in front of the stored file content. *)
Definition JPEG_DATA_PREFIX : string := "data:image/jpeg;base64,".

(* ===================================================================== *)
(** ** JSON text of a [UserPhoto[]] ([JSON.stringify], [JSON.parse]) *)
(* ===================================================================== *)

(** Strings are sequences of 8-bit code units.  [stringify] is
    [JSON.stringify] on an array of [UserPhoto] objects whose keys were
    created in the order [filepath], [webviewPath]: an absent
    ([undefined]) [webviewPath] is left out.  [parse] is [JSON.parse] on
    the texts of that shape; on any other text it answers [None] (the text
    is then not the index this hook writes). *)
Module Json.

Definition dquote : ascii := Ascii.ascii_of_N 34.
Definition backslash : ascii := Ascii.ascii_of_N 92.

Definition hexdigits : string := "0123456789abcdef".

Definition hexDigit (n : N) : ascii :=
  match String.get (N.to_nat (n mod 16)) hexdigits with
  | Some c => c
  | None => "0"%char
  end.

(** [QuoteJSONString] on one code unit. *)
Definition escapeChar (c : ascii) : string :=
  let n := Ascii.N_of_ascii c in
  if (n =? 34)%N then String backslash (String dquote EmptyString)
  else if (n =? 92)%N then String backslash (String backslash EmptyString)
  else if (n =? 8)%N then String backslash "b"
  else if (n =? 9)%N then String backslash "t"
  else if (n =? 10)%N then String backslash "n"
  else if (n =? 12)%N then String backslash "f"
  else if (n =? 13)%N then String backslash "r"
  else if (n <? 32)%N then
    String backslash
      (String "u" (String "0" (String "0"
         (String (hexDigit (n / 16)) (String (hexDigit n) EmptyString)))))
  else String c EmptyString.

Fixpoint escape (s : string) : string :=
  match s with
  | EmptyString => EmptyString
  | String c s' => escapeChar c +:+ escape s'
  end.

Definition quote (s : string) : string :=
  String dquote (escape s +:+ String dquote EmptyString).

Definition KEY_FILEPATH : string := quote "filepath" +:+ ":".
Definition KEY_WEBVIEWPATH : string := quote "webviewPath" +:+ ":".

Definition stringify_photo (p : UserPhoto) : string :=
  "{" +:+ KEY_FILEPATH +:+ quote (filepath p) +:+
  match webviewPath p with
  | Some w => "," +:+ KEY_WEBVIEWPATH +:+ quote w
  | None => EmptyString
  end +:+ "}".

Fixpoint stringify_items (l : list UserPhoto) : string :=
  match l with
  | [] => EmptyString
  | [p] => stringify_photo p
  | p :: l' => stringify_photo p +:+ "," +:+ stringify_items l'
  end.

(** [JSON.stringify(photos)] *)
Definition stringify (l : list UserPhoto) : string :=
  "[" +:+ stringify_items l +:+ "]".

(** *** Parsing *)

Fixpoint hex_from (c : ascii) (s : string) (i : N) : option N :=
  match s with
  | EmptyString => None
  | String a s' => if Ascii.eqb a c then Some i else hex_from c s' (i + 1)%N
  end.

(** Value of a hexadecimal digit, either case. *)
Definition hexValue (c : ascii) : option N :=
  match hex_from c hexdigits 0%N with
  | Some v => Some v
  | None => hex_from c "0123456789ABCDEF" 0%N
  end.

(** The character of a one-letter escape. *)
Definition unescape1 (e : ascii) : option ascii :=
  let n := Ascii.N_of_ascii e in
  if (n =? 34)%N then Some dquote
  else if (n =? 92)%N then Some backslash
  else if (n =? 47)%N then Some "/"%char
  else if (n =? 98)%N then Some (Ascii.ascii_of_N 8)
  else if (n =? 116)%N then Some (Ascii.ascii_of_N 9)
  else if (n =? 110)%N then Some (Ascii.ascii_of_N 10)
  else if (n =? 102)%N then Some (Ascii.ascii_of_N 12)
  else if (n =? 114)%N then Some (Ascii.ascii_of_N 13)
  else None.

(** The rest of a string literal after its opening quote: the decoded
    characters and the text after the closing quote. *)
Fixpoint parse_chars (s : string) : option (string * string) :=
  match s with
  | EmptyString => None
  | String c s' =>
      if Ascii.eqb c dquote then Some (EmptyString, s')
      else if Ascii.eqb c backslash then
        match s' with
        | EmptyString => None
        | String e s'' =>
            if Ascii.eqb e "u" then
              match s'' with
              | String h1 (String h2 (String h3 (String h4 r))) =>
                  match hexValue h1, hexValue h2, hexValue h3, hexValue h4 with
                  | Some 0%N, Some 0%N, Some v3, Some v4 =>
                      match parse_chars r with
                      | Some (t, rest) =>
                          Some (String (Ascii.ascii_of_N (v3 * 16 + v4)) t, rest)
                      | None => None
                      end
                  | _, _, _, _ => None
                  end
              | _ => None
              end
            else
              match unescape1 e, parse_chars s'' with
              | Some a, Some (t, rest) => Some (String a t, rest)
              | _, _ => None
              end
        end
      else if (Ascii.N_of_ascii c <? 32)%N then None
      else
        match parse_chars s' with
        | Some (t, rest) => Some (String c t, rest)
        | None => None
        end
  end.

(** [strip pat s]: the text of [s] after its prefix [pat]. *)
Fixpoint strip (pat s : string) : option string :=
  match pat, s with
  | EmptyString, _ => Some s
  | String _ _, EmptyString => None
  | String p pat', String c s' => if Ascii.eqb c p then strip pat' s' else None
  end.

Definition parse_quoted (s : string) : option (string * string) :=
  match s with
  | String c s' => if Ascii.eqb c dquote then parse_chars s' else None
  | EmptyString => None
  end.

(** One object, and the text after its closing brace. *)
Definition parse_photo (s : string) : option (UserPhoto * string) :=
  s1 ← strip ("{" +:+ KEY_FILEPATH) s;
  '(fp, s2) ← parse_quoted s1;
  match strip "}" s2 with
  | Some rest => Some (mkUserPhoto fp None, rest)
  | None =>
      s3 ← strip ("," +:+ KEY_WEBVIEWPATH) s2;
      '(wp, s4) ← parse_quoted s3;
      rest ← strip "}" s4;
      Some (mkUserPhoto fp (Some wp), rest)
  end.

(** The objects of a non-empty array up to and including its closing
    bracket; every round consumes one object. *)
Fixpoint parse_items (fuel : nat) (s : string) : option (list UserPhoto) :=
  match fuel with
  | O => None
  | S fuel' =>
      '(p, s1) ← parse_photo s;
      match s1 with
      | String c s2 =>
          if Ascii.eqb c "]" then
            match s2 with EmptyString => Some [p] | String _ _ => None end
          else if Ascii.eqb c "," then
            l ← parse_items fuel' s2; Some (p :: l)
          else None
      | EmptyString => None
      end
  end.

(** [JSON.parse(value) as UserPhoto[]] *)
Definition parse (s : string) : option (list UserPhoto) :=
  match s with
  | String c s' =>
      if Ascii.eqb c "[" then
        match s' with
        | String c' EmptyString =>
            if Ascii.eqb c' "]" then Some [] else None
        | _ => parse_items (String.length s) s'
        end
      else None
  | EmptyString => None
  end.

End Json.

(* ===================================================================== *)
(** ** External collaborators: calls, replies and failures *)
(* ===================================================================== *)

(** Values a promise is rejected with. *)
Inductive JsError : Type :=
| UserCancelled
| PermissionDenied
| NotFound
| IOError
| NetworkError
| ReaderError
| SyntaxError
| Message (msg : string).

Inductive Result (X : Type) : Type :=
| Resolved (x : X)
| Rejected (e : JsError).
Arguments Resolved {X} x.
Arguments Rejected {X} e.

Inductive Directory : Type := Data.
Inductive CameraResultType : Type := Uri | Base64Result | DataUrl.
Inductive CameraSource : Type := Prompt | Camera | Photos.

Record ImageOptions : Type := mkImageOptions {
  resultType : CameraResultType;
  source : CameraSource;
  quality : N
}.

(** A [Response] carries what [response.blob()] will settle with. *)
Record Response : Type := mkResponse { body : Result Blob }.

(** [reader.result] has type [string | ArrayBuffer | null]. *)
Inductive ReaderResult : Type :=
| RString (s : string)
| RArrayBuffer (bs : list byte)
| RNull.

(** The reader fires [onerror] or [onload]. *)
Inductive ReaderEvent : Type :=
| OnError (e : JsError)
| OnLoad (result : ReaderResult).

(** Promise-returning operations of the collaborators. *)
Inductive Call : Type :=
| Camera_getPhoto (options : ImageOptions)
| Filesystem_readFile (file : option string) (directory : option Directory)
| Filesystem_writeFile (file data : string) (directory : option Directory)
| Filesystem_deleteFile (file : string) (directory : option Directory)
| Preferences_get (key : string)
| Preferences_set (key value : string)
| fetch (input : option string)
| Response_blob (response : Response)
| FileReader_readAsDataURL (blob : Blob).

Definition Reply (c : Call) : Type :=
  match c with
  | Camera_getPhoto _ => Photo
  | Filesystem_readFile _ _ => string
  | Filesystem_writeFile _ _ _ => string
  | Filesystem_deleteFile _ _ => unit
  | Preferences_get _ => option string
  | Preferences_set _ _ => unit
  | fetch _ => Response
  | Response_blob _ => Blob
  | FileReader_readAsDataURL _ => ReaderEvent
  end.

(** Synchronous queries. *)
Inductive Query : Type :=
| isPlatform (name : string)
| Date_now
| Capacitor_convertFileSrc (uri : string).

Definition Answer (q : Query) : Type :=
  match q with
  | isPlatform _ => bool
  | Date_now => N
  | Capacitor_convertFileSrc _ => string
  end.

(* ===================================================================== *)
(** ** Bodies of [async] functions *)
(* ===================================================================== *)

(** [Await c k] is [const x = await c; k x]: the function is suspended
    until [c] settles and a rejection leaves the function (the hook has no
    [try]).  [Fire c k] is the statement [c;]: the call is issued and its
    promise dropped. *)
Inductive Async (A : Type) : Type :=
| Ret (a : A)
| Throw (e : JsError)
| Await (c : Call) (k : Reply c -> Async A)
| Fire (c : Call) (k : Async A)
| Ask (q : Query) (k : Answer q -> Async A)
| SetPhotos (l : list UserPhoto) (k : Async A).
Arguments Ret {A} a.
Arguments Throw {A} e.
Arguments Await {A} c k.
Arguments Fire {A} c k.
Arguments Ask {A} q k.
Arguments SetPhotos {A} l k.

Fixpoint bind {A B : Type} (m : Async A) (f : A -> Async B) : Async B :=
  match m with
  | Ret a => f a
  | Throw e => Throw e
  | Await c k => Await c (fun x => bind (k x) f)
  | Fire c k => Fire c (bind k f)
  | Ask q k => Ask q (fun x => bind (k x) f)
  | SetPhotos l k => SetPhotos l (bind k f)
  end.

#[global] Instance Async_ret : MRet Async := @Ret.
#[global] Instance Async_bind : MBind Async := fun A B f m => bind m f.

Definition await (c : Call) : Async (Reply c) := Await c Ret.
Definition fire (c : Call) : Async unit := Fire c (Ret tt).
Definition ask (q : Query) : Async (Answer q) := Ask q Ret.
Definition setPhotos (l : list UserPhoto) : Async unit := SetPhotos l (Ret tt).

(* ===================================================================== *)
(** ** The hook *)
(* ===================================================================== *)

Definition NOT_A_STRING : string := "method did not return a string".

(** [export async function base64FromPath(path)] *)
Definition base64FromPath (file : option string) : Async string :=
  response ← await (fetch file);
  blob ← await (Response_blob response);
  ev ← await (FileReader_readAsDataURL blob);
  match ev with
  | OnError e => Throw e
  | OnLoad (RString s) => Ret s
  | OnLoad _ => Throw (Message NOT_A_STRING)
  end.

(** [const savePicture = async (photo, fileName) => ...] *)
Definition savePicture (photo : Photo) (fileName : string) : Async UserPhoto :=
  hybrid ← ask (isPlatform "hybrid");
  base64Data ←
    (if hybrid : bool
     then await (Filesystem_readFile (path photo) None)
     else base64FromPath (webPath photo));
  savedFile ← await (Filesystem_writeFile fileName base64Data (Some Data));
  hybrid' ← ask (isPlatform "hybrid");
  if hybrid' : bool then
    src ← ask (Capacitor_convertFileSrc savedFile);
    Ret {| filepath := savedFile; webviewPath := Some src |}
  else
    Ret {| filepath := fileName; webviewPath := webPath photo |}.

(** [photo.filepath.substr(photo.filepath.lastIndexOf('/') + 1)] *)
Definition filename_of (fp : string) : string :=
  JsString.substr fp (JsString.lastIndexOf fp "/" + 1).

(** [photos.filter((p) => p.filepath !== photo.filepath)] *)
Definition without (photo : UserPhoto) (photos : list UserPhoto) : list UserPhoto :=
  List.filter (fun p => negb (String.eqb (filepath p) (filepath photo))) photos.

(** [const deletePhoto = async (photo) => ...]; [photos] is the list the
    closure captured when the hook was rendered. *)
Definition deletePhoto (photos : list UserPhoto) (photo : UserPhoto) : Async unit :=
  let newPhotos := without photo photos in
  fire (Preferences_set PHOTO_STORAGE (Json.stringify newPhotos));;
  let filename := filename_of (filepath photo) in
  await (Filesystem_deleteFile filename (Some Data));;
  setPhotos newPhotos.

Definition CAPTURE_OPTIONS : ImageOptions :=
  {| resultType := Uri; source := Camera; quality := 100 |}.

(** [const takePhoto = async () => ...] *)
Definition takePhoto (photos : list UserPhoto) : Async unit :=
  photo ← await (Camera_getPhoto CAPTURE_OPTIONS);
  now ← ask Date_now;
  let fileName := JsString.ofNumber now +:+ ".jpeg" in
  savedFileImage ← savePicture photo fileName;
  let newPhotos := savedFileImage :: photos in
  setPhotos newPhotos;;
  fire (Preferences_set PHOTO_STORAGE (Json.stringify newPhotos)).

(** [value ? JSON.parse(value) : []]: [null] and the empty string are
    falsy.  A text that [Json.parse] does not read is treated as one that
    [JSON.parse] throws on; the properties of [loadSaved] below are stated
    for an index that [Json.parse] reads. *)
Definition parse_index (value : option string) : Async (list UserPhoto) :=
  match value with
  | None => Ret []
  | Some EmptyString => Ret []
  | Some v =>
      match Json.parse v with
      | Some l => Ret l
      | None => Throw SyntaxError
      end
  end.

(** [for (let photo of photosInPreferences) { ... }]: every element gets
    its [webviewPath] assigned, in array order. *)
Fixpoint read_each (l : list UserPhoto) : Async (list UserPhoto) :=
  match l with
  | [] => Ret []
  | photo :: rest =>
      file ← await (Filesystem_readFile (Some (filepath photo)) (Some Data));
      let photo' :=
        {| filepath := filepath photo;
           webviewPath := Some (JPEG_DATA_PREFIX +:+ file) |} in
      rest' ← read_each rest;
      Ret (photo' :: rest')
  end.

(** [const loadSaved = async () => ...] *)
Definition loadSaved : Async unit :=
  value ← await (Preferences_get PHOTO_STORAGE);
  photosInPreferences ← parse_index value;
  hybrid ← ask (isPlatform "hybrid");
  loaded ← (if negb hybrid then read_each photosInPreferences
            else Ret photosInPreferences);
  setPhotos loaded.

(** What one render of [usePhotoGallery] returns: the two closures and the
    list, all built from the state value of that render. *)
Record Gallery : Type := mkGallery {
  gallery_takePhoto : Async unit;
  gallery_deletePhoto : UserPhoto -> Async unit;
  gallery_photos : list UserPhoto
}.

Definition usePhotoGallery (photos : list UserPhoto) : Gallery :=
  {| gallery_takePhoto := takePhoto photos;
     gallery_deletePhoto := deletePhoto photos;
     gallery_photos := photos |}.

(* ===================================================================== *)
(** ** The three tiers and the execution of a body *)
(* ===================================================================== *)

(** What the hook did, in program order. *)
Inductive Event : Type :=
| Awaited (c : Call)
| Fired (c : Call)
| StateSet (l : list UserPhoto).

Record World : Type := mkWorld {
  st_photos : list UserPhoto;       (** the [useState] cell *)
  preferences : gmap string string; (** the Index Store *)
  files : gmap string string;       (** the Blob Store, [Directory.Data] *)
  in_flight : list Call;            (** calls issued with [Fire], oldest
                                        first, that have not completed *)
  trace : list Event
}.

(** The collaborators as seen during one invocation. *)
Record Env : Type := mkEnv {
  platform : string -> bool;                  (** [isPlatform] *)
  camera : ImageOptions -> Result Photo;      (** [Camera.getPhoto] *)
  clock : N;                                  (** [Date.now()] *)
  convertFileSrc : string -> string;
  network : option string -> Result Response; (** [fetch] *)
  reader : Blob -> ReaderEvent;               (** [FileReader] *)
  device_read : option string -> Result string;
    (** [Filesystem.readFile] without a directory *)
  write_uri : string -> string;
    (** the [uri] that [Filesystem.writeFile] reports for a name *)
  stored_as : string -> string;
    (** what the Filesystem keeps of the [data] it is given *)
  io_fault : Call -> option JsError;
    (** a storage call the underlying store fails *)
  host_progress : World -> nat
    (** how many in-flight calls the host completes while the function is
        suspended *)
}.

Definition log (e : Event) (w : World) : World :=
  {| st_photos := st_photos w; preferences := preferences w; files := files w;
     in_flight := in_flight w; trace := trace w ++ [e] |}.

Definition set_photos (l : list UserPhoto) (w : World) : World :=
  {| st_photos := l; preferences := preferences w; files := files w;
     in_flight := in_flight w; trace := trace w ++ [StateSet l] |}.

Definition issue (c : Call) (w : World) : World :=
  {| st_photos := st_photos w; preferences := preferences w; files := files w;
     in_flight := in_flight w ++ [c]; trace := trace w ++ [Fired c] |}.

Definition with_preferences (m : gmap string string) (w : World) : World :=
  {| st_photos := st_photos w; preferences := m; files := files w;
     in_flight := in_flight w; trace := trace w |}.

Definition with_files (m : gmap string string) (w : World) : World :=
  {| st_photos := st_photos w; preferences := preferences w; files := m;
     in_flight := in_flight w; trace := trace w |}.

Definition with_in_flight (l : list Call) (w : World) : World :=
  {| st_photos := st_photos w; preferences := preferences w; files := files w;
     in_flight := l; trace := trace w |}.

Section Semantics.

Variable env : Env.

(** A call when the underlying store does not fail it. *)
Definition perform_ok (c : Call) (w : World) : Result (Reply c) * World :=
  match c as c0 return Result (Reply c0) * World with
  | Camera_getPhoto o => (camera env o, w)
  | Filesystem_readFile f None => (device_read env f, w)
  | Filesystem_readFile None (Some Data) => (Rejected IOError, w)
  | Filesystem_readFile (Some f) (Some Data) =>
      match files w !! f with
      | Some d => (Resolved d, w)
      | None => (Rejected NotFound, w)
      end
  | Filesystem_writeFile f d _ =>
      (Resolved (write_uri env f),
       with_files (<[f := stored_as env d]> (files w)) w)
  | Filesystem_deleteFile f _ =>
      match files w !! f with
      | Some _ => (Resolved tt, with_files (delete f (files w)) w)
      | None => (Rejected NotFound, w)
      end
  | Preferences_get k => (Resolved (preferences w !! k), w)
  | Preferences_set k v =>
      (Resolved tt, with_preferences (<[k := v]> (preferences w)) w)
  | fetch i => (network env i, w)
  | Response_blob r => (body r, w)
  | FileReader_readAsDataURL b => (Resolved (reader env b), w)
  end.

(** The calls that go to the Filesystem or to Preferences. *)
Definition is_storage (c : Call) : bool :=
  match c with
  | Filesystem_readFile _ _ | Filesystem_writeFile _ _ _
  | Filesystem_deleteFile _ _ | Preferences_get _ | Preferences_set _ _ => true
  | _ => false
  end.

(** The settlement of a call: a storage call that the store fails is
    rejected and changes nothing. *)
Definition perform (c : Call) (w : World) : Result (Reply c) * World :=
  if is_storage c then
    match io_fault env c with
    | Some e => (Rejected e, w)
    | None => perform_ok c w
    end
  else perform_ok c w.

(** The host completes the [n] oldest in-flight calls. *)
Fixpoint complete (n : nat) (w : World) : World :=
  match n with
  | O => w
  | S n' =>
      match in_flight w with
      | [] => w
      | c :: rest => complete n' (snd (perform c (with_in_flight rest w)))
      end
  end.

(** Every in-flight call has completed. *)
Definition quiesce (w : World) : World := complete (length (in_flight w)) w.

(** The function is suspended on [c]: the host makes progress, then [c]
    settles. *)
Definition settle (c : Call) (w : World) : Result (Reply c) * World :=
  let w1 := log (Awaited c) w in
  perform c (complete (host_progress env w1) w1).

Definition answer (q : Query) : Answer q :=
  match q as q0 return Answer q0 with
  | isPlatform name => platform env name
  | Date_now => clock env
  | Capacitor_convertFileSrc uri => convertFileSrc env uri
  end.

(** The body runs to the settlement of its promise. *)
Fixpoint run {A : Type} (p : Async A) (w : World) : Result A * World :=
  match p with
  | Ret a => (Resolved a, w)
  | Throw e => (Rejected e, w)
  | Await c k =>
      match settle c w with
      | (Resolved x, w') => run (k x) w'
      | (Rejected e, w') => (Rejected e, w')
      end
  | Fire c k => run k (issue c w)
  | Ask q k => run (k (answer q)) w
  | SetPhotos l k => run k (set_photos l w)
  end.

(** Where a body stands when it first gives up control. *)
Inductive Suspension (A : Type) : Type :=
| SuspendedOn (c : Call) (k : Reply c -> Async A) (w : World)
| Finished (r : Result A) (w : World).
Arguments SuspendedOn {A} c k w.
Arguments Finished {A} r w.

(** The synchronous prefix of a body, up to its first [await]. *)
Fixpoint to_suspension {A : Type} (p : Async A) (w : World) : Suspension A :=
  match p with
  | Ret a => Finished (Resolved a) w
  | Throw e => Finished (Rejected e) w
  | Await c k => SuspendedOn c k w
  | Fire c k => to_suspension k (issue c w)
  | Ask q k => to_suspension (k (answer q)) w
  | SetPhotos l k => to_suspension k (set_photos l w)
  end.

Definition resume {A : Type} (s : Suspension A) : Result A * World :=
  match s with
  | SuspendedOn c k w =>
      match settle c w with
      | (Resolved x, w') => run (k x) w'
      | (Rejected e, w') => (Rejected e, w')
      end
  | Finished r w => (r, w)
  end.

End Semantics.

Arguments SuspendedOn {A} c k w.
Arguments Finished {A} r w.

(** The hook as rendered from the current state. *)
Definition render (w : World) : Gallery := usePhotoGallery (st_photos w).

(** The index as the Index Store holds it. *)
Definition stored_index (w : World) : option string := preferences w !! PHOTO_STORAGE.

(* ===================================================================== *)
(** ** Vocabulary of the properties *)
(* ===================================================================== *)

(** The platform classes. *)
Definition browser_hosted (env : Env) : Prop := platform env "hybrid" = false.
Definition native_hosted (env : Env) : Prop := platform env "hybrid" = true.

(** The process is started again once every issued write has landed: the
    stores survive, the state and the closures do not. *)
Definition restart (env : Env) (w : World) : World :=
  {| st_photos := [];
     preferences := preferences (quiesce env w);
     files := files (quiesce env w);
     in_flight := [];
     trace := [] |}.

(** What happened between two worlds of one execution. *)
Definition events_since (w w' : World) : list Event :=
  drop (length (trace w)) (trace w').

Definition is_index_write (e : Event) : bool :=
  match e with
  | Fired (Preferences_set _ _) | Awaited (Preferences_set _ _) => true
  | _ => false
  end.

Definition is_state_set (e : Event) : bool :=
  match e with
  | StateSet _ => true
  | _ => false
  end.

(** An event that neither sets the state nor writes the index. *)
Definition harmless (e : Event) : Prop :=
  is_index_write e = false /\ is_state_set e = false.

(** Bodies that only await and ask, and never write the index. *)
Fixpoint quiet {A : Type} (p : Async A) : Prop :=
  match p with
  | Ret _ | Throw _ => True
  | Await c k =>
      match c with
      | Preferences_set _ _ => False
      | _ => forall x, quiet (k x)
      end
  | Ask q k => forall x, quiet (k x)
  | Fire _ _ | SetPhotos _ _ => False
  end.

(** The names of the files the Blob Store was asked to delete. *)
Fixpoint deleted_names (evs : list Event) : list string :=
  match evs with
  | [] => []
  | Awaited (Filesystem_deleteFile f _) :: rest
  | Fired (Filesystem_deleteFile f _) :: rest => f :: deleted_names rest
  | _ :: rest => deleted_names rest
  end.

(** The data handed to the Blob Store, by file name, in program order. *)
Fixpoint written_data (evs : list Event) : list (string * string) :=
  match evs with
  | [] => []
  | Awaited (Filesystem_writeFile f d _) :: rest
  | Fired (Filesystem_writeFile f d _) :: rest => (f, d) :: written_data rest
  | _ :: rest => written_data rest
  end.

(** What the promise built by [base64FromPath] settles with, read off the
    collaborators: [fetch], [response.blob()], then the reader's [onerror]
    or [onload] handler. *)
Definition encoded (env : Env) (file : option string) : Result string :=
  match network env file with
  | Rejected e => Rejected e
  | Resolved response =>
      match body response with
      | Rejected e => Rejected e
      | Resolved blob =>
          match reader env blob with
          | OnError e => Rejected e
          | OnLoad (RString s) => Resolved s
          | OnLoad _ => Rejected (Message NOT_A_STRING)
          end
      end
  end.

(** The path segments of a string, cut at every ['/']. *)
Fixpoint segments (s : string) : list string :=
  match s with
  | EmptyString => [EmptyString]
  | String c s' =>
      if Ascii.eqb c "/" then EmptyString :: segments s'
      else
        match segments s' with
        | seg :: rest => String c seg :: rest
        | [] => [String c EmptyString]
        end
  end.

(** The last path segment: the text after the final separator. *)
Definition last_segment (s : string) : string := List.last (segments s) EmptyString.

(** What a record looks like after [loadSaved] on a browser: the stored
    [webviewPath] is replaced by the header and the file content. *)
Definition materialized (store : gmap string string) (p q : UserPhoto) : Prop :=
  filepath q = filepath p /\
  exists d, store !! filepath p = Some d /\
            webviewPath q = Some (JPEG_DATA_PREFIX +:+ d).

(* ===================================================================== *)
(** ** Concrete collaborators used in the examples *)
(* ===================================================================== *)

Module Examples.

Definition fresh : World :=
  {| st_photos := []; preferences := ∅; files := ∅; in_flight := [];
     trace := [] |}.

Definition jpeg3 : Blob :=
  {| blob_type := "image/jpeg"; blob_bytes := [x01; x02; x03] |}.

(** The text of [s] up to its first comma. *)
Fixpoint up_to_comma (s : string) : string :=
  match s with
  | EmptyString => EmptyString
  | String c s' => if Ascii.eqb c "," then EmptyString else String c (up_to_comma s')
  end.

(** [data.split(',')[1]]: the text between the first comma and the next,
    when [data] has a comma. *)
Fixpoint second_field (s : string) : option string :=
  match s with
  | EmptyString => None
  | String c s' => if Ascii.eqb c "," then Some (up_to_comma s') else second_field s'
  end.

(** What the browser Filesystem keeps of the data of a write without
    encoding: [data.indexOf(',') >= 0 ? data.split(',')[1] : data], the
    base64 text of a data URL. *)
Definition web_data (data : string) : string :=
  match second_field data with
  | Some field => field
  | None => data
  end.

(** A browser: the Filesystem keeps the base64 text of the data. *)
Definition browser : Env :=
  {| platform := fun name => String.eqb name "desktop";
     camera := fun _ =>
       Resolved {| path := None; webPath := Some "blob:http://localhost/7f3a" |};
     clock := 1700000000000%N;
     convertFileSrc := fun uri => uri;
     network := fun _ => Resolved {| body := Resolved jpeg3 |};
     reader := fun b => OnLoad (RString (dataURL b));
     device_read := fun _ => Rejected NotFound;
     write_uri := fun name => "/DATA/" +:+ name;
     stored_as := web_data;
     io_fault := fun _ => None;
     host_progress := fun _ => 0%nat |}.

(** The same browser one millisecond later, with a second capture. *)
Definition browser_later : Env :=
  {| platform := platform browser;
     camera := fun _ =>
       Resolved {| path := None; webPath := Some "blob:http://localhost/9c1d" |};
     clock := 1700000000001%N;
     convertFileSrc := convertFileSrc browser;
     network := network browser;
     reader := reader browser;
     device_read := device_read browser;
     write_uri := write_uri browser;
     stored_as := stored_as browser;
     io_fault := io_fault browser;
     host_progress := host_progress browser |}.

(** The user dismisses the camera. *)
Definition cancelling : Env :=
  {| platform := platform browser;
     camera := fun _ => Rejected UserCancelled;
     clock := clock browser;
     convertFileSrc := convertFileSrc browser;
     network := network browser;
     reader := reader browser;
     device_read := device_read browser;
     write_uri := write_uri browser;
     stored_as := stored_as browser;
     io_fault := io_fault browser;
     host_progress := host_progress browser |}.

(** A device: files are read directly and their URIs rewritten. *)
Definition device : Env :=
  {| platform := fun name => String.eqb name "hybrid";
     camera := fun _ =>
       Resolved {| path := Some "file:///tmp/capture.jpg";
                   webPath := Some "http://localhost/_capacitor_file_/tmp/capture.jpg" |};
     clock := 1700000000000%N;
     convertFileSrc := fun uri => "http://localhost/_capacitor_file_" +:+ uri;
     network := fun _ => Rejected NetworkError;
     reader := fun _ => OnError ReaderError;
     device_read := fun _ => Resolved "AQID";
     write_uri := fun name => "/data/files/" +:+ name;
     stored_as := fun data => data;
     io_fault := fun _ => None;
     host_progress := fun _ => 0%nat |}.

(** The text after the first comma, or the whole text when it has none. *)
Fixpoint after_comma_from (whole s : string) : string :=
  match s with
  | EmptyString => whole
  | String c s' => if Ascii.eqb c "," then s' else after_comma_from whole s'
  end.

(** A browser whose Filesystem drops the header of a data URL and keeps
    the text after its comma. *)
Definition browser_stripping : Env :=
  {| platform := platform browser;
     camera := camera browser;
     clock := clock browser;
     convertFileSrc := convertFileSrc browser;
     network := network browser;
     reader := reader browser;
     device_read := device_read browser;
     write_uri := write_uri browser;
     stored_as := fun data => after_comma_from data data;
     io_fault := io_fault browser;
     host_progress := host_progress browser |}.

Definition shot : UserPhoto :=
  {| filepath := "1700000000000.jpeg";
     webviewPath := Some "blob:http://localhost/7f3a" |}.

Definition device_shot : UserPhoto :=
  {| filepath := "/data/files/1700000000000.jpeg";
     webviewPath :=
       Some "http://localhost/_capacitor_file_/data/files/1700000000000.jpeg" |}.

(** One photo in all three tiers. *)
Definition one_photo : World :=
  {| st_photos := [shot];
     preferences := {[ PHOTO_STORAGE := Json.stringify [shot] ]};
     files := {[ "1700000000000.jpeg" := "AQID" ]};
     in_flight := [];
     trace := [] |}.

(** The same, after the file was removed from outside. *)
Definition blob_gone : World :=
  {| st_photos := [shot];
     preferences := {[ PHOTO_STORAGE := Json.stringify [shot] ]};
     files := ∅;
     in_flight := [];
     trace := [] |}.

(** A device whose index holds one record, before the hook is mounted. *)
Definition device_cold : World :=
  {| st_photos := [];
     preferences := {[ PHOTO_STORAGE := Json.stringify [device_shot] ]};
     files := {[ "1700000000000.jpeg" := "AQID" ]};
     in_flight := [];
     trace := [] |}.

(** A browser whose index holds two records, before the hook is mounted. *)
Definition browser_cold : World :=
  {| st_photos := [];
     preferences :=
       {[ PHOTO_STORAGE :=
            Json.stringify
              [ {| filepath := "2.jpeg"; webviewPath := Some "blob:stale-2" |};
                {| filepath := "1.jpeg"; webviewPath := Some "blob:stale-1" |} ] ]};
     files := {[ "1.jpeg" := "AQID"; "2.jpeg" := "BAUG" ]};
     in_flight := [];
     trace := [] |}.

End Examples.

(* ===================================================================== *)
(** ** Bodies that only read *)
(* ===================================================================== *)

(** The calls that read a store without changing it. *)
Definition is_read (c : Call) : bool :=
  match c with
  | Preferences_get _ | Filesystem_readFile _ _ => true
  | _ => false
  end.

(** Bodies that await nothing but reads of the stores, fire nothing and
    never set the state. *)
Fixpoint read_only {A : Type} (p : Async A) : Prop :=
  match p with
  | Ret _ | Throw _ => True
  | Await c k => is_read c = true /\ forall x, read_only (k x)
  | Ask q k => forall x, read_only (k x)
  | Fire _ _ | SetPhotos _ _ => False
  end.

(** The files the Blob Store was asked to read. *)
Fixpoint read_names (evs : list Event) : list (option string) :=
  match evs with
  | [] => []
  | Awaited (Filesystem_readFile f _) :: rest
  | Fired (Filesystem_readFile f _) :: rest => f :: read_names rest
  | _ :: rest => read_names rest
  end.

Module MoreExamples.

(** The browser of [Examples.browser], with another capture taken within
    the same millisecond. *)
Definition browser_same_ms : Env :=
  {| platform := platform Examples.browser;
     camera := fun _ =>
       Resolved {| path := None; webPath := Some "blob:http://localhost/9c1d" |};
     clock := clock Examples.browser;
     convertFileSrc := convertFileSrc Examples.browser;
     network := fun _ =>
       Resolved {| body := Resolved {| blob_type := "image/jpeg";
                                       blob_bytes := [x04; x05; x06] |} |};
     reader := reader Examples.browser;
     device_read := device_read Examples.browser;
     write_uri := write_uri Examples.browser;
     stored_as := stored_as Examples.browser;
     io_fault := io_fault Examples.browser;
     host_progress := host_progress Examples.browser |}.

(** A browser whose index names a file that the Blob Store does not have. *)
Definition browser_dangling : World :=
  {| st_photos := [Examples.shot];
     preferences :=
       {[ PHOTO_STORAGE :=
            Json.stringify
              [ {| filepath := "2.jpeg"; webviewPath := None |};
                {| filepath := "1.jpeg"; webviewPath := None |} ] ]};
     files := {[ "2.jpeg" := "BAUG" ]};
     in_flight := [];
     trace := [] |}.

(** A device whose host completes every write at once. *)
Definition eager_device : Env :=
  {| platform := platform Examples.device;
     camera := camera Examples.device;
     clock := clock Examples.device;
     convertFileSrc := convertFileSrc Examples.device;
     network := network Examples.device;
     reader := reader Examples.device;
     device_read := device_read Examples.device;
     write_uri := write_uri Examples.device;
     stored_as := stored_as Examples.device;
     io_fault := io_fault Examples.device;
     host_progress := fun _ => 5%nat |}.

(** A browser whose Preferences store fails every write. *)
Definition browser_index_down : Env :=
  {| platform := platform Examples.browser;
     camera := camera Examples.browser;
     clock := clock Examples.browser;
     convertFileSrc := convertFileSrc Examples.browser;
     network := network Examples.browser;
     reader := reader Examples.browser;
     device_read := device_read Examples.browser;
     write_uri := write_uri Examples.browser;
     stored_as := stored_as Examples.browser;
     io_fault := fun c =>
       match c with
       | Preferences_set _ _ => Some IOError
       | _ => None
       end;
     host_progress := host_progress Examples.browser |}.

End MoreExamples.

(* ===================================================================== *)
(** ** General facts about the execution *)
(* ===================================================================== *)

Section SemanticsFacts.

Variable env : Env.

Lemma run_bind {A B : Type} (m : Async A) (f : A -> Async B) (w : World) :
  run env (bind m f) w =
  match run env m w with
  | (Resolved a, w') => run env (f a) w'
  | (Rejected e, w') => (Rejected e, w')
  end.
Proof.
  revert w. induction m as [a | e | c k IH | c k IH | q k IH | l k IH];
    intros w; simpl; auto.
  destruct (settle env c w) as [[x | e] w']; auto.
Qed.

Lemma run_mbind {A B : Type} (m : Async A) (f : A -> Async B) (w : World) :
  run env (m ≫= f) w =
  match run env m w with
  | (Resolved a, w') => run env (f a) w'
  | (Rejected e, w') => (Rejected e, w')
  end.
Proof. apply run_bind. Qed.

(** The two views of an execution agree. *)
Lemma resume_to_suspension {A : Type} (p : Async A) (w : World) :
  resume env (to_suspension env p w) = run env p w.
Proof.
  revert w. induction p as [a | e | c k IH | c k IH | q k IH | l k IH];
    intros w; simpl; auto.
Qed.

(** A settlement touches the stores only. *)
Lemma perform_frame (c : Call) (w : World) :
  st_photos (snd (perform env c w)) = st_photos w /\
  in_flight (snd (perform env c w)) = in_flight w /\
  trace (snd (perform env c w)) = trace w.
Proof.
  unfold perform.
  destruct (is_storage c); [destruct (io_fault env c) |]; simpl; auto;
    destruct c as [o | [f|] [[]|] | f d dir | f dir | k | k v | i | r | b];
    simpl; auto; destruct (files w !! f); simpl; auto.
Qed.

Lemma complete_nil (n : nat) (w : World) :
  in_flight w = [] -> complete env n w = w.
Proof. intros H. destruct n; simpl; [reflexivity | now rewrite H]. Qed.

Lemma with_in_flight_id (w : World) : with_in_flight (in_flight w) w = w.
Proof. now destruct w. Qed.

Lemma complete_frame (n : nat) (w : World) :
  st_photos (complete env n w) = st_photos w /\
  trace (complete env n w) = trace w /\
  in_flight (complete env n w) = drop n (in_flight w).
Proof.
  revert w. induction n as [| n IH]; intros w; simpl.
  - now rewrite drop_0.
  - destruct (in_flight w) as [| c rest] eqn:E; simpl.
    + now rewrite E.
    + destruct (IH (snd (perform env c (with_in_flight rest w)))) as (H1 & H2 & H3).
      destruct (perform_frame c (with_in_flight rest w)) as (P1 & P2 & P3).
      rewrite H1, H2, H3, P1, P2, P3. auto.
Qed.

Lemma complete_add (n m : nat) (w : World) :
  complete env m (complete env n w) = complete env (n + m) w.
Proof.
  revert w. induction n as [| n IH]; intros w; simpl; [reflexivity |].
  destruct (in_flight w) as [| c rest] eqn:E; [| apply IH].
  now apply complete_nil.
Qed.

Lemma complete_ge (n : nat) (w : World) :
  (length (in_flight w) <= n)%nat -> complete env n w = quiesce env w.
Proof.
  unfold quiesce. revert w. induction n as [| n IH]; intros w Hn.
  - destruct (in_flight w); simpl in *; [reflexivity | lia].
  - simpl. destruct (in_flight w) as [| c rest] eqn:E; simpl; [reflexivity |].
    rewrite E. simpl in Hn.
    destruct (perform_frame c (with_in_flight rest w)) as (_ & P2 & _).
    rewrite IH by (rewrite P2; simpl; lia).
    rewrite P2. reflexivity.
Qed.

(** Progress made during a suspension does not change where the stores
    end up. *)
Lemma quiesce_complete (n : nat) (w : World) :
  quiesce env (complete env n w) = quiesce env w.
Proof.
  unfold quiesce at 1. rewrite complete_add.
  apply complete_ge.
  destruct (complete_frame n w) as (_ & _ & H). rewrite H.
  rewrite length_drop. lia.
Qed.

Lemma quiesce_frame (w : World) :
  st_photos (quiesce env w) = st_photos w /\
  trace (quiesce env w) = trace w /\
  in_flight (quiesce env w) = [].
Proof.
  unfold quiesce.
  destruct (complete_frame (length (in_flight w)) w) as (H1 & H2 & H3).
  rewrite H3, drop_all. auto.
Qed.

End SemanticsFacts.

(* ===================================================================== *)
(** ** Strings and the JSON text *)
(* ===================================================================== *)

#[local] Arguments String.append !_ _ / : simpl nomatch.

Section StringFacts.

Lemma append_assoc (a b c : string) : (a +:+ b) +:+ c = a +:+ (b +:+ c).
Proof. induction a as [| x a IH]; cbn; [reflexivity | now f_equal]. Qed.

Lemma append_nil_r (a : string) : a +:+ EmptyString = a.
Proof. induction a as [| x a IH]; cbn; [reflexivity | now f_equal]. Qed.

Lemma length_append (a b : string) :
  String.length (a +:+ b) = (String.length a + String.length b)%nat.
Proof. induction a as [| x a IH]; cbn; [reflexivity | now f_equal]. Qed.

End StringFacts.

Module JsonFacts.
Import Json.

Lemma parse_chars_eq (c : ascii) (s' : string) :
  parse_chars (String c s') =
  if Ascii.eqb c dquote then Some (EmptyString, s')
  else if Ascii.eqb c backslash then
    match s' with
    | EmptyString => None
    | String e s'' =>
        if Ascii.eqb e "u" then
          match s'' with
          | String h1 (String h2 (String h3 (String h4 r))) =>
              match hexValue h1, hexValue h2, hexValue h3, hexValue h4 with
              | Some 0%N, Some 0%N, Some v3, Some v4 =>
                  match parse_chars r with
                  | Some (t, rest) =>
                      Some (String (Ascii.ascii_of_N (v3 * 16 + v4)) t, rest)
                  | None => None
                  end
              | _, _, _, _ => None
              end
          | _ => None
          end
        else
          match unescape1 e, parse_chars s'' with
          | Some a, Some (t, rest) => Some (String a t, rest)
          | _, _ => None
          end
    end
  else if (Ascii.N_of_ascii c <? 32)%N then None
  else
    match parse_chars s' with
    | Some (t, rest) => Some (String c t, rest)
    | None => None
    end.
Proof. reflexivity. Qed.

Lemma parse_chars_escape (s rest : string) :
  parse_chars (escape s +:+ String dquote rest) = Some (s, rest).
Proof.
  induction s as [| c s IH]; [reflexivity |].
  cbn [escape]. rewrite append_assoc.
  remember (escape s +:+ String dquote rest) as t eqn:Et.
  destruct c as [[] [] [] [] [] [] [] []];
    lazy -[parse_chars]; rewrite parse_chars_eq; lazy -[parse_chars];
    rewrite IH; reflexivity.
Qed.

Lemma parse_quoted_quote (s rest : string) :
  parse_quoted (quote s +:+ rest) = Some (s, rest).
Proof.
  unfold quote. cbn [String.append parse_quoted].
  rewrite append_assoc. cbn. apply parse_chars_escape.
Qed.

Lemma strip_append (pat s : string) : strip pat (pat +:+ s) = Some s.
Proof.
  induction pat as [| p pat IH]; simpl; [now destruct s |].
  now rewrite Ascii.eqb_refl.
Qed.

Lemma parse_photo_stringify (p : UserPhoto) (rest : string) :
  parse_photo (stringify_photo p +:+ rest) = Some (p, rest).
Proof.
  destruct p as [fp wp]. unfold parse_photo, stringify_photo.
  cbn [filepath webviewPath].
  rewrite !append_assoc.
  rewrite <- (append_assoc "{" KEY_FILEPATH).
  rewrite strip_append. cbn [mbind option_bind].
  rewrite parse_quoted_quote.
  destruct wp as [w |]; cbn [mbind option_bind].
  - rewrite !append_assoc.
    rewrite <- (append_assoc "," KEY_WEBVIEWPATH).
    change (strip "}" (("," +:+ KEY_WEBVIEWPATH) +:+ quote w +:+ "}" +:+ rest))
      with (@None string).
    rewrite strip_append. cbn [mbind option_bind].
    rewrite parse_quoted_quote. reflexivity.
  - reflexivity.
Qed.

Lemma stringify_items_cons (p q : UserPhoto) (l : list UserPhoto) :
  stringify_items (p :: q :: l) =
  stringify_photo p +:+ "," +:+ stringify_items (q :: l).
Proof. reflexivity. Qed.

Lemma parse_items_stringify (l : list UserPhoto) (p : UserPhoto) (fuel : nat) :
  (length l < fuel)%nat ->
  parse_items fuel (stringify_items (p :: l) +:+ "]") = Some (p :: l).
Proof.
  revert p fuel. induction l as [| q l IH]; intros p fuel Hf;
    (destruct fuel as [| fuel]; [simpl in Hf; lia |]).
  - cbn [stringify_items parse_items].
    rewrite parse_photo_stringify. reflexivity.
  - rewrite stringify_items_cons, !append_assoc. cbn [parse_items].
    rewrite parse_photo_stringify.
    cbn [mbind option_bind String.append Ascii.eqb Bool.eqb].
    rewrite IH by (simpl in Hf; lia). reflexivity.
Qed.

Lemma stringify_photo_length (p : UserPhoto) :
  (1 <= String.length (stringify_photo p))%nat.
Proof. unfold stringify_photo. simpl. lia. Qed.

Lemma stringify_items_length (l : list UserPhoto) :
  (length l <= String.length (stringify_items l))%nat.
Proof.
  induction l as [| p l IH]; [simpl; lia |].
  destruct l as [| q l].
  - pose proof (stringify_photo_length p). simpl in *. lia.
  - rewrite stringify_items_cons, !length_append.
    pose proof (stringify_photo_length p). simpl in *. lia.
Qed.

(** What [JSON.stringify] writes, [JSON.parse] reads back. *)
Lemma parse_stringify (l : list UserPhoto) :
  parse (stringify l) = Some l.
Proof.
  destruct l as [| p l]; [reflexivity |].
  unfold stringify.
  assert (Hs : exists t, stringify_items (p :: l) +:+ "]" =
                         String "{" (String dquote t)).
  { destruct l as [| q l]; [| rewrite stringify_items_cons];
      unfold stringify_photo; cbn; eauto. }
  destruct Hs as [t Ht].
  assert (Hlen : (length l < String.length ("[" +:+ stringify_items (p :: l) +:+ "]"))%nat).
  { rewrite !length_append. pose proof (stringify_items_length (p :: l)).
    simpl in *. lia. }
  transitivity
    (parse_items (String.length ("[" +:+ stringify_items (p :: l) +:+ "]"))
       (stringify_items (p :: l) +:+ "]")).
  - cbn [String.append]. unfold parse. cbn [Ascii.eqb Bool.eqb].
    rewrite Ht. reflexivity.
  - now apply parse_items_stringify.
Qed.

Lemma stringify_not_empty (l : list UserPhoto) : stringify l <> EmptyString.
Proof. unfold stringify. cbn. discriminate. Qed.

End JsonFacts.

(* ===================================================================== *)
(** ** Base64 *)
(* ===================================================================== *)

Module Base64Facts.
Import Base64.

Lemma get_nth_error (k : nat) (s : string) :
  String.get k s = List.nth_error (list_ascii_of_string s) k.
Proof.
  revert k. induction s as [| c s IH]; intros [| k]; simpl; auto.
Qed.

Lemma digit_in_alphabet (n : N) :
  In (digit n) (list_ascii_of_string alphabet).
Proof.
  unfold digit. rewrite get_nth_error.
  destruct (List.nth_error _ _) as [c |] eqn:E.
  - eapply List.nth_error_In; eauto.
  - apply List.nth_error_None in E.
    assert (H : (n mod 64 < 64)%N) by (apply N.mod_upper_bound; discriminate).
    change (length (list_ascii_of_string alphabet)) with 64%nat in E.
    revert E H. generalize (n mod 64)%N. intros k E H. lia.
Qed.

(** A property checked on the 64 characters holds of every digit. *)
Lemma digit_forall (f : ascii -> bool) (n : N) :
  forallb f (list_ascii_of_string alphabet) = true -> f (digit n) = true.
Proof.
  intros H. rewrite List.forallb_forall in H. apply H, digit_in_alphabet.
Qed.

Lemma digit_not_pad (n : N) : Ascii.eqb (digit n) pad = false.
Proof.
  apply Bool.negb_true_iff.
  apply (digit_forall (fun c => negb (Ascii.eqb c pad))). reflexivity.
Qed.

Lemma digit_mod (n : N) : digit (n mod 64) = digit n.
Proof. unfold digit. now rewrite N.Div0.mod_mod. Qed.

Lemma value_digit (n : N) : value (digit n) = Some (n mod 64)%N.
Proof.
  rewrite <- digit_mod.
  assert (Hin : In (n mod 64)%N (List.map N.of_nat (List.seq 0 64))).
  { apply List.in_map_iff. exists (N.to_nat (n mod 64)). split; [apply N2Nat.id |].
    apply List.in_seq.
    assert (H : (n mod 64 < 64)%N) by (apply N.mod_upper_bound; discriminate).
    revert H. generalize (n mod 64)%N. intros k H. split; lia. }
  revert Hin. generalize (n mod 64)%N. intros k Hk.
  assert (Hall : forallb (fun k => match value (digit k) with
                                   | Some v => N.eqb v k
                                   | None => false
                                   end)
                   (List.map N.of_nat (List.seq 0 64)) = true)
    by (vm_compute; reflexivity).
  rewrite List.forallb_forall in Hall. specialize (Hall k Hk).
  destruct (value (digit k)) as [v |]; [| discriminate].
  apply N.eqb_eq in Hall. now subst.
Qed.

Lemma byte_of_to_N (b : byte) (n : N) :
  (n mod 256 = Byte.to_N b)%N -> byte_of n = Some b.
Proof. unfold byte_of. intros ->. apply Byte.of_to_N. Qed.

Lemma to_N_bound (b : byte) : (Byte.to_N b < 256)%N.
Proof. pose proof (Byte.to_N_bounded b). lia. Qed.

Ltac euclid := zify; Z.to_euclidean_division_equations; lia.

(** Every byte the decoder rebuilds is one of [a], [b], [c]. *)
Ltac bytes a b c :=
  unfold byte_of;
  repeat match goal with
    | |- context [Byte.of_N (?e mod 256)%N] =>
        first [ replace (e mod 256)%N with (Byte.to_N a) by euclid
              | replace (e mod 256)%N with (Byte.to_N b) by euclid
              | replace (e mod 256)%N with (Byte.to_N c) by euclid ];
        rewrite Byte.of_to_N; cbn [mbind option_bind]
    end.

Lemma decode_encode_1 (a : byte) : decode (encode [a]) = Some [a].
Proof.
  pose proof (to_N_bound a) as Ha.
  cbn [encode decode]. rewrite !value_digit.
  cbn [Ascii.eqb Bool.eqb pad]. change (Ascii.eqb "=" "=") with true. cbn iota.
  bytes a a a. reflexivity.
Qed.

Lemma decode_encode_2 (a b : byte) : decode (encode [a; b]) = Some [a; b].
Proof.
  pose proof (to_N_bound a) as Ha. pose proof (to_N_bound b) as Hb.
  cbn [encode decode]. rewrite !value_digit, digit_not_pad.
  change (Ascii.eqb pad pad) with true. cbn iota.
  cbn [mbind option_bind].
  bytes a b b. reflexivity.
Qed.

Lemma decode_encode_3 (a b c : byte) (rest : list byte) :
  decode (encode rest) = Some rest ->
  decode (encode (a :: b :: c :: rest)) = Some (a :: b :: c :: rest).
Proof.
  intros IH.
  pose proof (to_N_bound a) as Ha. pose proof (to_N_bound b) as Hb.
  pose proof (to_N_bound c) as Hc.
  cbn [encode decode]. rewrite !value_digit, !digit_not_pad.
  cbn [mbind option_bind]. rewrite IH.
  bytes a b c. reflexivity.
Qed.

(** Decoding the encoding of a byte sequence gives the sequence back. *)
Lemma decode_encode (bs : list byte) : decode (encode bs) = Some bs.
Proof.
  assert (H : decode (encode bs) = Some bs /\
              (forall a, decode (encode (a :: bs)) = Some (a :: bs)) /\
              (forall a b, decode (encode (a :: b :: bs)) = Some (a :: b :: bs))).
  { induction bs as [| c rest (IH0 & IH1 & IH2)].
    - split; [reflexivity |]. split; intros.
      + apply decode_encode_1.
      + apply decode_encode_2.
    - split; [apply IH1 |]. split; intros.
      + apply IH2.
      + now apply decode_encode_3. }
  apply H.
Qed.

(** No digit or padding character is a colon. *)
Lemma encode_no_colon (bs : list byte) :
  JsString.contains ":" (encode bs) = false.
Proof.
  assert (Hd : forall n, Ascii.eqb (digit n) ":" = false).
  { intros n. apply Bool.negb_true_iff.
    apply (digit_forall (fun c => negb (Ascii.eqb c ":"))). reflexivity. }
  assert (H : JsString.contains ":" (encode bs) = false /\
              (forall a, JsString.contains ":" (encode (a :: bs)) = false) /\
              (forall a b, JsString.contains ":" (encode (a :: b :: bs)) = false)).
  { induction bs as [| c rest (IH0 & IH1 & IH2)].
    - split; [reflexivity |].
      split; intros; cbn [encode JsString.contains]; rewrite !Hd; reflexivity.
    - split; [apply IH1 |]. split; intros; [apply IH2 |].
      cbn [encode JsString.contains]. rewrite !Hd. exact IH0. }
  apply H.
Qed.

End Base64Facts.

(* ===================================================================== *)
(** ** Suspensions, quiet bodies and the stores *)
(* ===================================================================== *)

Section HookFacts.

Variable env : Env.

Lemma settle_frame (c : Call) (w : World) :
  st_photos (snd (settle env c w)) = st_photos w /\
  trace (snd (settle env c w)) = trace w ++ [Awaited c] /\
  exists n, in_flight (snd (settle env c w)) = drop n (in_flight w).
Proof.
  unfold settle.
  set (w1 := log (Awaited c) w).
  destruct (perform_frame env c (complete env (host_progress env w1) w1))
    as (P1 & P2 & P3).
  destruct (complete_frame env (host_progress env w1) w1) as (C1 & C2 & C3).
  rewrite P1, P2, P3, C1, C2, C3. subst w1. simpl. eauto.
Qed.

(** With nothing in flight, only a write of the index changes it. *)
Lemma settle_preferences (c : Call) (w : World) :
  in_flight w = [] ->
  (forall k v, c <> Preferences_set k v) ->
  preferences (snd (settle env c w)) = preferences w.
Proof.
  intros Hf Hc. unfold settle.
  rewrite complete_nil by exact Hf.
  unfold perform.
  destruct (is_storage c); [destruct (io_fault env c) |]; simpl; auto;
    destruct c as [o | [f|] [[]|] | f d dir | f dir | k | k v | i | r | b];
    simpl; auto; try (destruct (files w !! f); simpl; auto);
    now destruct (Hc k v).
Qed.

(** With nothing in flight, only a write or a delete changes the files. *)
Lemma settle_files (c : Call) (w : World) :
  in_flight w = [] ->
  (forall f d dir, c <> Filesystem_writeFile f d dir) ->
  (forall f dir, c <> Filesystem_deleteFile f dir) ->
  files (snd (settle env c w)) = files w.
Proof.
  intros Hf Hw Hd. unfold settle.
  rewrite complete_nil by exact Hf.
  unfold perform.
  destruct (is_storage c); [destruct (io_fault env c) |]; simpl; auto;
    destruct c as [o | [f|] [[]|] | f d dir | f dir | k | k v | i | r | b];
    simpl; auto; try (destruct (files w !! f); simpl; auto);
    first [ now destruct (Hw f d dir) | now destruct (Hd f dir) ].
Qed.

Lemma quiet_bind {A B : Type} (m : Async A) (f : A -> Async B) :
  quiet m -> (forall a, quiet (f a)) -> quiet (bind m f).
Proof.
  intros Hm Hf.
  induction m as [a | e | c k IH | c k IH | q k IH | l k IH]; simpl in *; auto.
  destruct c; auto.
Qed.

Lemma quiet_mbind {A B : Type} (m : Async A) (f : A -> Async B) :
  quiet m -> (forall a, quiet (f a)) -> quiet (m ≫= f).
Proof. apply quiet_bind. Qed.

(** A quiet body leaves the state alone, issues nothing and, with
    nothing in flight, leaves the index alone. *)
Lemma quiet_run {A : Type} (p : Async A) :
  quiet p ->
  forall w r w', run env p w = (r, w') ->
    st_photos w' = st_photos w /\
    (exists n, in_flight w' = drop n (in_flight w)) /\
    (in_flight w = [] -> preferences w' = preferences w) /\
    exists evs, trace w' = trace w ++ evs /\ Forall harmless evs.
Proof.
  induction p as [a | e | c k IH | c k IH | q k IH | l k IH];
    intros Hq w r w' Hr; simpl in *; try contradiction.
  - inversion Hr; subst. repeat split; auto.
    + exists 0%nat. now rewrite drop_0.
    + exists []. now rewrite app_nil_r.
  - inversion Hr; subst. repeat split; auto.
    + exists 0%nat. now rewrite drop_0.
    + exists []. now rewrite app_nil_r.
  - destruct (settle_frame c w) as (S1 & S2 & n & S3).
    assert (Hh : harmless (Awaited c)) by (destruct c; try contradiction; now split).
    assert (Hp : in_flight w = [] ->
                 preferences (snd (settle env c w)) = preferences w).
    { intros Hf. apply settle_preferences; [exact Hf |].
      intros k0 v ->. contradiction. }
    assert (Hk : forall x, quiet (k x)) by (destruct c; auto; contradiction).
    destruct (settle env c w) as [[x | e] w1]; simpl in *.
    + destruct (IH x (Hk x) w1 r w' Hr) as (I1 & (m & I2) & I3 & evs & I4 & I5).
      repeat split.
      * congruence.
      * exists (n + m)%nat. now rewrite I2, S3, drop_drop.
      * intros Hf. rewrite I3; [auto |]. rewrite S3, Hf. apply drop_nil.
      * exists (Awaited c :: evs). split; [| now constructor].
        rewrite I4, S2, <- app_assoc. reflexivity.
    + inversion Hr; subst. repeat split; auto.
      * eauto.
      * exists [Awaited c]. split; [assumption | now constructor].
  - eauto.
Qed.

Lemma events_since_app (w w' : World) (evs : list Event) :
  trace w' = trace w ++ evs -> events_since w w' = evs.
Proof. intros H. unfold events_since. rewrite H. apply drop_app_length. Qed.

(** When the last call in flight is a write of the index that the store
    does not fail, the index ends up holding that value. *)
Lemma quiesce_last_write (l : list Call) (k v : string) (w : World) :
  in_flight w = l ++ [Preferences_set k v] ->
  io_fault env (Preferences_set k v) = None ->
  preferences (quiesce env w) !! k = Some v.
Proof.
  intros Hf Hio. unfold quiesce. rewrite Hf. clear -Hf Hio.
  revert w Hf. induction l as [| c l IH]; intros w Hf; simpl.
  - rewrite Hf. unfold perform. simpl. rewrite Hio. simpl.
    apply lookup_insert_eq.
  - rewrite Hf. simpl. apply IH.
    destruct (perform_frame env c (with_in_flight (l ++ [Preferences_set k v]) w))
      as (_ & P & _).
    rewrite P. reflexivity.
Qed.

Lemma base64FromPath_quiet (file : option string) : quiet (base64FromPath file).
Proof.
  unfold base64FromPath, await. simpl. intros response blob ev.
  destruct ev as [e | [s | bs |]]; simpl; exact I.
Qed.

Lemma savePicture_quiet (photo : Photo) (fileName : string) :
  quiet (savePicture photo fileName).
Proof.
  unfold savePicture. simpl. intros hybrid.
  apply quiet_bind.
  - destruct hybrid; [simpl; auto | apply base64FromPath_quiet].
  - intros data. simpl. intros uri hybrid'. destruct hybrid'; simpl; auto.
Qed.

End HookFacts.

(* ===================================================================== *)
(** ** Stepping through a body *)
(* ===================================================================== *)

Section Stepping.

Variable env : Env.
Context {B : Type}.

Lemma run_await_bind (c : Call) (f : Reply c -> Async B) (w : World) :
  run env (await c ≫= f) w =
  match settle env c w with
  | (Resolved x, w') => run env (f x) w'
  | (Rejected e, w') => (Rejected e, w')
  end.
Proof. reflexivity. Qed.

Lemma run_ask_bind (q : Query) (f : Answer q -> Async B) (w : World) :
  run env (ask q ≫= f) w = run env (f (answer env q)) w.
Proof. reflexivity. Qed.

Lemma run_setPhotos_bind (l : list UserPhoto) (f : unit -> Async B) (w : World) :
  run env (setPhotos l ≫= f) w = run env (f tt) (set_photos l w).
Proof. reflexivity. Qed.

Lemma run_fire_bind (c : Call) (f : unit -> Async B) (w : World) :
  run env (fire c ≫= f) w = run env (f tt) (issue c w).
Proof. reflexivity. Qed.

End Stepping.

(** The same steps, for a continuation whose argument type is the reply
    type only up to computation. *)
Ltac step_await :=
  match goal with
  | |- context [@run ?e ?B (@mbind _ _ ?A _ ?f (await ?c)) ?w] =>
      change (@run e B (@mbind _ _ A _ f (await c)) w)
        with (match settle e c w with
              | (Resolved x, w') => @run e B (f x) w'
              | (Rejected er, w') => (Rejected er, w')
              end)
  end.

Ltac step_ask :=
  match goal with
  | |- context [@run ?e ?B (@mbind _ _ ?A _ ?f (ask ?q)) ?w] =>
      change (@run e B (@mbind _ _ A _ f (ask q)) w)
        with (@run e B (f (answer e q)) w)
  end.

(* ===================================================================== *)
(** ** Capture and save *)
(* ===================================================================== *)

Section TakePhoto.

Variable env : Env.

(** [takePhoto] is a quiet prefix (capture, name, [savePicture]) followed
    by [setPhotos] and the index write, neither of which can fail. *)
Lemma takePhoto_run (photos : list UserPhoto) (w : World) :
  run env (takePhoto photos) w =
  match run env (photo ← await (Camera_getPhoto CAPTURE_OPTIONS);
                 now ← ask Date_now;
                 savePicture photo (JsString.ofNumber now +:+ ".jpeg")) w with
  | (Resolved saved, w1) =>
      (Resolved tt,
       issue (Preferences_set PHOTO_STORAGE (Json.stringify (saved :: photos)))
         (set_photos (saved :: photos) w1))
  | (Rejected e, w1) => (Rejected e, w1)
  end.
Proof.
  unfold takePhoto.
  do 2 step_await.
  destruct (settle env (Camera_getPhoto CAPTURE_OPTIONS) w) as [[photo | e] w0];
    [| reflexivity].
  do 2 step_ask. cbv beta. rewrite run_mbind.
  destruct (run env (savePicture photo _) w0) as [[saved | e] w1];
    [| reflexivity].
  rewrite run_setPhotos_bind. reflexivity.
Qed.

Lemma capture_quiet :
  quiet (photo ← await (Camera_getPhoto CAPTURE_OPTIONS);
         now ← ask Date_now;
         savePicture photo (JsString.ofNumber now +:+ ".jpeg")).
Proof.
  apply quiet_mbind; [simpl; auto |]. intros photo.
  apply quiet_mbind; [simpl; auto |]. intros now.
  apply savePicture_quiet.
Qed.

End TakePhoto.

(** C1 (as stated, refuted): a capture on a fresh browser resolves while
    the Index Store still has no value under ["photos"], although the list
    in memory already holds the new record. *)
Lemma takePhoto_resolves_with_stale_index :
  let r := run Examples.browser (gallery_takePhoto (render Examples.fresh))
             Examples.fresh in
  fst r = Resolved tt /\
  st_photos (snd r) = [Examples.shot] /\
  stored_index (snd r) = None /\
  stored_index (snd r) <> Some (Json.stringify (st_photos (snd r))).
Proof.
  repeat split; try (vm_compute; reflexivity).
  vm_compute. discriminate.
Qed.

(** C1 (amended): when a capture-and-save resolves, the new record heads
    the list in memory and the write of the serialized list has been issued
    but has not completed: it is the youngest call in flight, the Index
    Store is as it was (when nothing else was in flight), and it holds the
    serialization of the list once the write completes. *)
Theorem takePhoto_issues_index_write (env : Env) (w w' : World) :
  run env (gallery_takePhoto (render w)) w = (Resolved tt, w') ->
  exists saved pending,
    st_photos w' = saved :: st_photos w /\
    in_flight w' =
      pending ++ [Preferences_set PHOTO_STORAGE (Json.stringify (st_photos w'))] /\
    (in_flight w = [] -> stored_index w' = stored_index w) /\
    (io_fault env (Preferences_set PHOTO_STORAGE (Json.stringify (st_photos w'))) = None ->
     st_photos (quiesce env w') = st_photos w' /\
     stored_index (quiesce env w') = Some (Json.stringify (st_photos w'))).
Proof.
  unfold render, usePhotoGallery, gallery_takePhoto. rewrite takePhoto_run.
  destruct (run env _ w) as [[saved | e] w1] eqn:Hq; [| discriminate].
  intros Hr. inversion Hr; subst w'; clear Hr.
  destruct (quiet_run env _ capture_quiet _ _ _ Hq) as (Q1 & (n & Q2) & Q3 & _).
  exists saved, (in_flight w1). simpl. repeat split.
  - intros Hf. unfold stored_index. simpl. now rewrite Q3.
  - apply quiesce_frame.
  - unfold stored_index. eapply quiesce_last_write; [reflexivity | assumption].
Qed.

Lemma takePhoto_issues_index_write_witness :
  exists saved pending,
    st_photos (snd (run Examples.browser (takePhoto []) Examples.fresh)) =
      saved :: st_photos Examples.fresh /\
    in_flight (snd (run Examples.browser (takePhoto []) Examples.fresh)) =
      pending ++ [Preferences_set PHOTO_STORAGE (Json.stringify [Examples.shot])].
Proof.
  destruct (takePhoto_issues_index_write Examples.browser Examples.fresh
              (snd (run Examples.browser (takePhoto []) Examples.fresh)))
    as (saved & pending & H1 & H2 & _).
  - vm_compute. reflexivity.
  - exists saved, pending. split; [exact H1 | exact H2].
Defined.

(** C2: a capture-and-save that fails leaves the list in memory as it was,
    sets no state and issues no index write; with nothing else in flight
    the Index Store value is unchanged.  ([takePhoto] can only fail in its
    prefix: the capture, the read, the encoding or the Blob Store write.) *)
Theorem takePhoto_failure_changes_nothing (env : Env) (w w' : World) (e : JsError) :
  run env (gallery_takePhoto (render w)) w = (Rejected e, w') ->
  st_photos w' = st_photos w /\
  Forall harmless (events_since w w') /\
  (exists n, in_flight w' = drop n (in_flight w)) /\
  (in_flight w = [] -> stored_index w' = stored_index w).
Proof.
  unfold render, usePhotoGallery, gallery_takePhoto. rewrite takePhoto_run.
  destruct (run env _ w) as [[saved | e0] w1] eqn:Hq; [discriminate |].
  intros Hr. inversion Hr; subst; clear Hr.
  destruct (quiet_run env _ capture_quiet _ _ _ Hq)
    as (Q1 & Q2 & Q3 & evs & Q4 & Q5).
  repeat split; auto.
  - now rewrite (events_since_app _ _ _ Q4).
  - intros Hf. unfold stored_index. now rewrite Q3.
Qed.

Lemma takePhoto_failure_witness :
  st_photos (snd (run Examples.cancelling (takePhoto []) Examples.fresh)) = [] /\
  Forall harmless
    (events_since Examples.fresh
       (snd (run Examples.cancelling (takePhoto []) Examples.fresh))).
Proof.
  destruct (takePhoto_failure_changes_nothing Examples.cancelling Examples.fresh
              (snd (run Examples.cancelling (takePhoto []) Examples.fresh))
              UserCancelled) as (H1 & H2 & _).
  - vm_compute. reflexivity.
  - split; [exact H1 | exact H2].
Defined.

(* ===================================================================== *)
(** ** The Blob Store name of a record *)
(* ===================================================================== *)

Section LastSegment.

Import JsString.

Lemma startsWith_nil (s : string) : startsWith s EmptyString = true.
Proof. now destruct s. Qed.

Lemma segments_not_nil (s : string) : segments s <> [].
Proof.
  induction s as [| c s IH]; simpl; [discriminate |].
  destruct (Ascii.eqb c "/"); [discriminate |].
  destruct (segments s); discriminate.
Qed.

Lemma segments_no_slash (s : string) :
  contains "/" s = false -> segments s = [s].
Proof.
  induction s as [| c s IH]; simpl; [reflexivity |].
  destruct (Ascii.eqb c "/"); [discriminate |].
  intros H. now rewrite (IH H).
Qed.

Lemma segments_slash (s : string) :
  contains "/" s = true -> exists a b rest, segments s = a :: b :: rest.
Proof.
  induction s as [| c s IH]; simpl; [discriminate |].
  destruct (Ascii.eqb c "/").
  - intros _. destruct (segments s) as [| b rest] eqn:E.
    + now destruct (segments_not_nil s).
    + eauto.
  - intros H. destruct (IH H) as (a & b & rest & ->). eauto.
Qed.

Lemma last_segment_no_slash (s : string) :
  contains "/" s = false -> last_segment s = s.
Proof. intros H. unfold last_segment. now rewrite (segments_no_slash s H). Qed.

Lemma last_segment_cons (c : ascii) (s : string) :
  contains "/" (String c s) = true ->
  last_segment (String c s) = if contains "/" s then last_segment s else s.
Proof.
  unfold last_segment. simpl.
  destruct (Ascii.eqb c "/") eqn:Ec.
  - intros _. destruct (contains "/" s) eqn:Es.
    + destruct (segments_slash s Es) as (a & b & rest & ->). reflexivity.
    + now rewrite (segments_no_slash s Es).
  - intros Es. rewrite Es.
    destruct (segments_slash s Es) as (a & b & rest & ->). reflexivity.
Qed.

(** [lastIndexOf] finds the final separator, and what follows it is the
    last segment. *)
Lemma lastIndexOf_from_spec (s : string) (i : Z) :
  0 <= i ->
  (contains "/" s = false /\ lastIndexOf_from s "/" i = -1) \/
  (contains "/" s = true /\
   i <= lastIndexOf_from s "/" i < i + Z.of_nat (String.length s) /\
   drop (Z.to_nat (lastIndexOf_from s "/" i - i + 1)) s = last_segment s).
Proof.
  revert i. induction s as [| c s IH]; intros i Hi.
  - left. split; reflexivity.
  - cbn [lastIndexOf_from].
    destruct (IH (i + 1) ltac:(lia)) as [(Hn & Hr) | (Hy & Hr & Hd)].
    + rewrite Hr. change (0 <=? -1) with false. cbn iota.
      cbn [startsWith contains]. rewrite startsWith_nil.
      destruct (Ascii.eqb c "/") eqn:Ec.
      * right. split; [reflexivity |]. split.
        -- cbn [String.length]. lia.
        -- replace (Z.to_nat (i - i + 1)) with 1%nat by lia. cbn [drop].
           rewrite last_segment_cons by (cbn [contains]; now rewrite Ec).
           now rewrite Hn.
      * left. split; [exact Hn | reflexivity].
    + destruct (0 <=? lastIndexOf_from s "/" (i + 1)) eqn:E;
        [| apply Z.leb_gt in E; lia].
      right. split; [cbn [contains]; rewrite Hy; now destruct (Ascii.eqb c "/") |].
      split.
      * cbn [String.length]. lia.
      * replace (Z.to_nat (lastIndexOf_from s "/" (i + 1) - i + 1))
          with (S (Z.to_nat (lastIndexOf_from s "/" (i + 1) - (i + 1) + 1)))
          by lia.
        cbn [drop]. rewrite Hd.
        rewrite last_segment_cons
          by (cbn [contains]; rewrite Hy; now destruct (Ascii.eqb c "/")).
        now rewrite Hy.
Qed.

(** The name computed by [deletePhoto] is the last path segment. *)
Lemma filename_of_last_segment (fp : string) :
  filename_of fp = last_segment fp.
Proof.
  unfold filename_of, substr, lastIndexOf.
  destruct (lastIndexOf_from_spec fp 0 ltac:(lia)) as [(Hn & Hr) | (Hy & Hr & Hd)].
  - rewrite Hr. change (-1 + 1 <? 0) with false. cbn iota.
    rewrite Z.min_l by lia. cbn [Z.to_nat drop].
    symmetry. now apply last_segment_no_slash.
  - destruct (lastIndexOf_from fp "/" 0 + 1 <? 0) eqn:E;
      [apply Z.ltb_lt in E; lia |].
    rewrite Z.min_l by lia.
    replace (lastIndexOf_from fp "/" 0 - 0 + 1)
      with (lastIndexOf_from fp "/" 0 + 1) in Hd by lia.
    exact Hd.
Qed.

(** The last segment is what follows the final separator: it has no
    separator, and what precedes it is empty or ends with one. *)
Lemma last_segment_spec (s : string) :
  exists pre,
    s = pre +:+ last_segment s /\
    contains "/" (last_segment s) = false /\
    (pre = EmptyString \/ exists p, pre = p +:+ "/").
Proof.
  induction s as [| c s (pre & H1 & H2 & H3)].
  - exists EmptyString. repeat split; auto.
  - destruct (contains "/" (String c s)) eqn:Ec.
    + rewrite (last_segment_cons c s Ec).
      destruct (contains "/" s) eqn:Es.
      * exists (String c pre). split; [cbn; now f_equal |]. split; [exact H2 |].
        right. destruct H3 as [-> | (p & ->)].
        -- cbn in H1. rewrite <- H1 in H2. rewrite H2 in Es. discriminate.
        -- exists (String c p). reflexivity.
      * exists (String c EmptyString). split; [reflexivity |].
        split; [exact Es |]. right. exists EmptyString.
        cbn in Ec. rewrite Es in Ec.
        destruct (Ascii.eqb c "/") eqn:E; [| discriminate].
        apply Ascii.eqb_eq in E. now subst.
    + rewrite (last_segment_no_slash _ Ec).
      exists EmptyString. repeat split; auto.
Qed.

End LastSegment.

(* ===================================================================== *)
(** ** Delete *)
(* ===================================================================== *)

Section DeletePhoto.

Variable env : Env.

Lemma deletePhoto_to_suspension (photos : list UserPhoto) (photo : UserPhoto)
    (w : World) :
  exists k,
    to_suspension env (deletePhoto photos photo) w =
    SuspendedOn (Filesystem_deleteFile (filename_of (filepath photo)) (Some Data)) k
      (issue (Preferences_set PHOTO_STORAGE (Json.stringify (without photo photos))) w).
Proof. eexists. reflexivity. Qed.

Lemma deletePhoto_run (photos : list UserPhoto) (photo : UserPhoto) (w : World) :
  run env (deletePhoto photos photo) w =
  match settle env (Filesystem_deleteFile (filename_of (filepath photo)) (Some Data))
          (issue (Preferences_set PHOTO_STORAGE
                    (Json.stringify (without photo photos))) w) with
  | (Resolved _, w1) => (Resolved tt, set_photos (without photo photos) w1)
  | (Rejected e, w1) => (Rejected e, w1)
  end.
Proof.
  unfold deletePhoto. cbv zeta.
  change (run env (fire ?c ≫= ?f) w) with (run env (f tt) (issue c w)).
  cbv beta. step_await.
  destruct (settle env _ _) as [[[] | e] w1]; reflexivity.
Qed.

(** A write of the index that completes leaves the files alone. *)
Lemma complete_index_write_files (n : nat) (k v : string) (w : World) :
  in_flight w = [Preferences_set k v] ->
  files (complete env n w) = files w.
Proof.
  intros Hf. destruct n as [| n]; [reflexivity |].
  simpl. rewrite Hf. rewrite complete_nil.
  - unfold perform. simpl. now destruct (io_fault env (Preferences_set k v)).
  - now destruct (perform_frame env (Preferences_set k v) (with_in_flight [] w))
      as (_ & -> & _).
Qed.

End DeletePhoto.

(** C3 (as stated, refuted): the record's file is already gone; the delete
    is rejected with [NotFound] and the record is still in the list in
    memory. *)
Lemma deletePhoto_blob_missing_rejects :
  let r := run Examples.browser
             (gallery_deletePhoto (render Examples.blob_gone) Examples.shot)
             Examples.blob_gone in
  fst r = Rejected NotFound /\
  st_photos (snd r) = [Examples.shot] /\
  In Examples.shot (st_photos (snd r)).
Proof.
  repeat split; try (vm_compute; reflexivity).
  left. vm_compute. reflexivity.
Qed.

(** C3 (amended): when the record's file is absent from the Blob Store, the
    delete is rejected (with [NotFound], unless the store fails the call
    with an error of its own) and the list in memory is left as it was; the
    write of the reduced list was issued before, so the Index Store holds
    the reduced list once that write completes. *)
Theorem deletePhoto_blob_missing (env : Env) (w : World) (photo : UserPhoto) :
  in_flight w = [] ->
  files w !! filename_of (filepath photo) = None ->
  exists e w',
    run env (gallery_deletePhoto (render w) photo) w = (Rejected e, w') /\
    (io_fault env (Filesystem_deleteFile (filename_of (filepath photo)) (Some Data))
       = None -> e = NotFound) /\
    st_photos w' = st_photos w /\
    events_since w w' =
      [Fired (Preferences_set PHOTO_STORAGE
                (Json.stringify (without photo (st_photos w))));
       Awaited (Filesystem_deleteFile (filename_of (filepath photo)) (Some Data))] /\
    (io_fault env (Preferences_set PHOTO_STORAGE
                     (Json.stringify (without photo (st_photos w)))) = None ->
     stored_index (quiesce env w') =
       Some (Json.stringify (without photo (st_photos w)))).
Proof.
  intros Hf Hblob.
  unfold render, usePhotoGallery, gallery_deletePhoto. rewrite deletePhoto_run.
  set (reduced := without photo (st_photos w)).
  set (index_write := Preferences_set PHOTO_STORAGE (Json.stringify reduced)).
  set (blob_delete := Filesystem_deleteFile (filename_of (filepath photo)) (Some Data)).
  unfold settle.
  set (w1 := log (Awaited blob_delete) (issue index_write w)).
  set (w2 := complete env (host_progress env w1) w1).
  assert (Hin : in_flight w1 = [] ++ [index_write]) by (simpl; now rewrite Hf).
  assert (Hfiles : files w2 = files w).
  { subst w2. now rewrite (complete_index_write_files env _ PHOTO_STORAGE
                             (Json.stringify reduced) w1 Hin). }
  destruct (complete_frame env (host_progress env w1) w1) as (C1 & C2 & _).
  fold w2 in C1, C2.
  assert (Hperf : exists e,
            perform env blob_delete w2 = (Rejected e, w2) /\
            (io_fault env blob_delete = None -> e = NotFound)).
  { unfold perform. simpl. destruct (io_fault env blob_delete) as [e |].
    - exists e. split; [reflexivity | discriminate].
    - exists NotFound. rewrite Hfiles, Hblob. split; reflexivity. }
  destruct Hperf as (e & -> & He).
  exists e, w2. repeat split.
  - exact He.
  - rewrite C1. reflexivity.
  - apply events_since_app. rewrite C2. simpl. now rewrite <- app_assoc.
  - intros Hio. subst w2. rewrite quiesce_complete.
    unfold stored_index. eapply quiesce_last_write; eauto.
Qed.

Lemma deletePhoto_blob_missing_witness :
  exists e w',
    run Examples.browser
      (gallery_deletePhoto (render Examples.blob_gone) Examples.shot)
      Examples.blob_gone = (Rejected e, w') /\
    st_photos w' = [Examples.shot].
Proof.
  destruct (deletePhoto_blob_missing Examples.browser Examples.blob_gone Examples.shot)
    as (e & w' & H1 & _ & H2 & _).
  - reflexivity.
  - vm_compute. reflexivity.
  - exists e, w'. split; [exact H1 | exact H2].
Defined.

(** C4 (as stated, refuted): when [deletePhoto] is suspended on the blob
    delete, the list in memory still holds the record. *)
Lemma deletePhoto_suspends_before_setPhotos :
  exists k w1,
    to_suspension Examples.browser
      (gallery_deletePhoto (render Examples.one_photo) Examples.shot)
      Examples.one_photo =
      SuspendedOn (Filesystem_deleteFile "1700000000000.jpeg" (Some Data)) k w1 /\
    without Examples.shot (st_photos Examples.one_photo) = [] /\
    st_photos w1 = [Examples.shot] /\
    st_photos w1 <> without Examples.shot (st_photos Examples.one_photo).
Proof.
  eexists. eexists. split; [reflexivity |].
  split; [reflexivity |]. split; [reflexivity |]. discriminate.
Qed.

(** C4 (amended): when [deletePhoto] reaches the suspension point of the
    blob delete, the write of the reduced list has been issued and the list
    in memory is unchanged; the list in memory becomes the reduced list
    after the blob delete has resolved, and stays as it was when the blob
    delete is rejected. *)
Theorem deletePhoto_suspension_point (env : Env) (w : World) (photo : UserPhoto) :
  let reduced := without photo (st_photos w) in
  let blob_delete :=
    Filesystem_deleteFile (filename_of (filepath photo)) (Some Data) in
  let index_write := Preferences_set PHOTO_STORAGE (Json.stringify reduced) in
  exists k w1,
    to_suspension env (gallery_deletePhoto (render w) photo) w =
      SuspendedOn blob_delete k w1 /\
    resume env (SuspendedOn blob_delete k w1) =
      run env (gallery_deletePhoto (render w) photo) w /\
    in_flight w1 = in_flight w ++ [index_write] /\
    events_since w w1 = [Fired index_write] /\
    st_photos w1 = st_photos w /\
    match run env (gallery_deletePhoto (render w) photo) w with
    | (Resolved _, w') =>
        st_photos w' = reduced /\
        events_since w w' =
          [Fired index_write; Awaited blob_delete; StateSet reduced]
    | (Rejected _, w') =>
        st_photos w' = st_photos w /\
        events_since w w' = [Fired index_write; Awaited blob_delete]
    end.
Proof.
  cbv zeta. unfold render, usePhotoGallery, gallery_deletePhoto.
  set (reduced := without photo (st_photos w)).
  set (blob_delete := Filesystem_deleteFile (filename_of (filepath photo)) (Some Data)).
  set (index_write := Preferences_set PHOTO_STORAGE (Json.stringify reduced)).
  destruct (deletePhoto_to_suspension env (st_photos w) photo w) as (k & Hk).
  fold reduced index_write blob_delete in Hk.
  exists k, (issue index_write w).
  split; [exact Hk |].
  split; [rewrite <- Hk; apply resume_to_suspension |].
  split; [reflexivity |].
  split; [apply events_since_app; reflexivity |].
  split; [reflexivity |].
  rewrite deletePhoto_run. fold reduced index_write blob_delete.
  destruct (settle_frame env blob_delete (issue index_write w)) as (S1 & S2 & _).
  destruct (settle env blob_delete (issue index_write w)) as [[[] | e] w']; simpl in *.
  - split; [reflexivity |].
    apply events_since_app. simpl. rewrite S2. simpl. now rewrite <- !app_assoc.
  - split; [exact S1 |].
    apply events_since_app. rewrite S2. simpl. now rewrite <- !app_assoc.
Qed.

(** C9: the name handed to the Blob Store delete is the last path segment
    of the record's [filepath]: the text after the final ['/'] (the whole
    [filepath] when it has none), and it is the only file the operation
    asks to delete. *)
Theorem deletePhoto_blob_name (env : Env) (w : World) (photos : list UserPhoto)
    (photo : UserPhoto) :
  (exists k w1,
     to_suspension env (deletePhoto photos photo) w =
       SuspendedOn (Filesystem_deleteFile (last_segment (filepath photo)) (Some Data))
         k w1) /\
  deleted_names (events_since w (snd (run env (deletePhoto photos photo) w))) =
    [last_segment (filepath photo)] /\
  exists pre,
    filepath photo = pre +:+ last_segment (filepath photo) /\
    JsString.contains "/" (last_segment (filepath photo)) = false /\
    (pre = EmptyString \/ exists p, pre = p +:+ "/").
Proof.
  split; [| split].
  - destruct (deletePhoto_to_suspension env photos photo w) as (k & Hk).
    rewrite filename_of_last_segment in Hk. eauto.
  - rewrite deletePhoto_run.
    set (blob_delete := Filesystem_deleteFile (filename_of (filepath photo)) (Some Data)).
    set (w0 := issue _ w).
    destruct (settle_frame env blob_delete w0) as (_ & S2 & _).
    destruct (settle env blob_delete w0) as [[[] | e] w']; simpl in *.
    + rewrite (events_since_app w _ ([Fired (Preferences_set PHOTO_STORAGE
                 (Json.stringify (without photo photos))); Awaited blob_delete;
                 StateSet (without photo photos)])).
      * simpl. now rewrite filename_of_last_segment.
      * simpl. rewrite S2. subst w0. simpl. now rewrite <- !app_assoc.
    + rewrite (events_since_app w _ ([Fired (Preferences_set PHOTO_STORAGE
                 (Json.stringify (without photo photos))); Awaited blob_delete])).
      * simpl. now rewrite filename_of_last_segment.
      * rewrite S2. subst w0. simpl. now rewrite <- !app_assoc.
  - apply last_segment_spec.
Qed.

(* ===================================================================== *)
(** ** Load saved *)
(* ===================================================================== *)

Section LoadSaved.

Variable env : Env.

Lemma parse_index_run (value : option string) (w : World) :
  run env (parse_index value) w =
  (match value with
   | None => Resolved []
   | Some EmptyString => Resolved []
   | Some v =>
       match Json.parse v with
       | Some l => Resolved l
       | None => Rejected SyntaxError
       end
   end, w).
Proof.
  unfold parse_index.
  destruct value as [[| c v] |]; try reflexivity.
  destruct (Json.parse (String c v)); reflexivity.
Qed.

Lemma parse_index_parsed (v : string) (l : list UserPhoto) (w : World) :
  Json.parse v = Some l -> run env (parse_index (Some v)) w = (Resolved l, w).
Proof.
  intros H. rewrite parse_index_run. destruct v as [| c v]; [discriminate |].
  now rewrite H.
Qed.

Lemma loadSaved_run (w : World) :
  run env loadSaved w =
  match settle env (Preferences_get PHOTO_STORAGE) w with
  | (Resolved value, w1) =>
      match run env (parse_index value) w1 with
      | (Resolved l, w2) =>
          match run env (if negb (platform env "hybrid") then read_each l
                         else Ret l) w2 with
          | (Resolved loaded, w3) => (Resolved tt, set_photos loaded w3)
          | (Rejected e, w3) => (Rejected e, w3)
          end
      | (Rejected e, w2) => (Rejected e, w2)
      end
  | (Rejected e, w1) => (Rejected e, w1)
  end.
Proof.
  unfold loadSaved. step_await.
  destruct (settle env (Preferences_get PHOTO_STORAGE) w) as [[value | e] w1];
    [| reflexivity].
  rewrite run_mbind.
  destruct (run env (parse_index value) w1) as [[l | e] w2]; [| reflexivity].
  step_ask. cbv beta. rewrite run_mbind.
  change (answer env (isPlatform "hybrid")) with (platform env "hybrid").
  destruct (run env _ w2) as [[loaded | e] w3]; reflexivity.
Qed.

(** With nothing in flight, an awaited call settles on the world as it
    is. *)
Lemma settle_idle (c : Call) (w : World) :
  in_flight w = [] -> settle env c w = perform env c (log (Awaited c) w).
Proof. intros H. unfold settle. now rewrite complete_nil. Qed.

Lemma settle_readFile (f d : string) (w w1 : World) :
  in_flight w = [] ->
  settle env (Filesystem_readFile (Some f) (Some Data)) w = (Resolved d, w1) ->
  files w !! f = Some d /\
  w1 = log (Awaited (Filesystem_readFile (Some f) (Some Data))) w.
Proof.
  intros Hf. rewrite settle_idle by exact Hf. unfold perform. simpl.
  destruct (io_fault env _); [discriminate |].
  destruct (files w !! f) as [d' |]; [| discriminate].
  intros H. inversion H; subst. auto.
Qed.

(** The loop keeps every record's [filepath], in order, and replaces its
    [webviewPath] by the header followed by the file content. *)
Lemma read_each_run (l l' : list UserPhoto) (w w' : World) :
  in_flight w = [] ->
  run env (read_each l) w = (Resolved l', w') ->
  Forall2 (materialized (files w)) l l' /\
  st_photos w' = st_photos w /\ files w' = files w /\
  preferences w' = preferences w /\ in_flight w' = [].
Proof.
  revert l' w w'. induction l as [| p rest IH]; intros l' w w' Hf Hr.
  - simpl in Hr. inversion Hr; subst. repeat split; auto; constructor.
  - cbn [read_each] in Hr. revert Hr. step_await.
    destruct (settle env _ w) as [[d | e] w1] eqn:Hs; [| discriminate].
    destruct (settle_readFile _ _ _ _ Hf Hs) as (Hd & ->).
    rewrite run_mbind.
    destruct (run env (read_each rest) _) as [[rest' | e] w2] eqn:Hrest;
      [| discriminate].
    simpl. intros Hr. inversion Hr; subst; clear Hr.
    destruct (IH rest' (log _ w) w' Hf Hrest) as (I1 & I2 & I3 & I4 & I5).
    simpl in *. repeat split; auto.
    constructor; [| exact I1].
    split; [reflexivity |]. exists d. split; [exact Hd | reflexivity].
Qed.

(** The order of the records, whatever is in flight. *)
Lemma read_each_filepaths (l l' : list UserPhoto) (w w' : World) :
  run env (read_each l) w = (Resolved l', w') ->
  List.map filepath l' = List.map filepath l /\ length l' = length l.
Proof.
  revert l' w w'. induction l as [| p rest IH]; intros l' w w' Hr.
  - simpl in Hr. inversion Hr; subst. auto.
  - cbn [read_each] in Hr. revert Hr. step_await.
    destruct (settle env _ w) as [[d | e] w1]; [| discriminate].
    rewrite run_mbind.
    destruct (run env (read_each rest) _) as [[rest' | e] w2] eqn:Hrest;
      [| discriminate].
    simpl. intros Hr. inversion Hr; subst; clear Hr.
    destruct (IH rest' _ _ Hrest) as (I1 & I2). simpl. split; congruence.
Qed.

Lemma settle_get_idle (w : World) :
  in_flight w = [] ->
  io_fault env (Preferences_get PHOTO_STORAGE) = None ->
  settle env (Preferences_get PHOTO_STORAGE) w =
  (Resolved (stored_index w), log (Awaited (Preferences_get PHOTO_STORAGE)) w).
Proof.
  intros Hf Hio. rewrite settle_idle by exact Hf.
  unfold perform. simpl. now rewrite Hio.
Qed.

(** What a resolved [loadSaved] leaves in memory, by platform. *)
Lemma loadSaved_parsed (w w' : World) (v : string) (l : list UserPhoto) :
  in_flight w = [] ->
  stored_index w = Some v ->
  Json.parse v = Some l ->
  run env loadSaved w = (Resolved tt, w') ->
  if platform env "hybrid" then st_photos w' = l
  else Forall2 (materialized (files w)) l (st_photos w').
Proof.
  intros Hf Hv Hl. rewrite loadSaved_run.
  destruct (io_fault env (Preferences_get PHOTO_STORAGE)) as [e |] eqn:Hio.
  - rewrite settle_idle by exact Hf. unfold perform. simpl. rewrite Hio.
    discriminate.
  - rewrite (settle_get_idle w Hf Hio), Hv.
    rewrite (parse_index_parsed v l _ Hl).
    destruct (platform env "hybrid"); simpl.
    + intros Hr. inversion Hr; subst. reflexivity.
    + destruct (run env (read_each l) _) as [[loaded | e] w3] eqn:Hr;
        [| discriminate].
      intros H. inversion H; subst; clear H. simpl.
      now destruct (read_each_run l loaded (log _ w) w3 Hf Hr) as (H1 & _).
Qed.

(** The order of the records after a resolved [loadSaved]. *)
Lemma loadSaved_filepaths (w w' : World) (v : string) (l : list UserPhoto) :
  fst (settle env (Preferences_get PHOTO_STORAGE) w) = Resolved (Some v) ->
  Json.parse v = Some l ->
  run env loadSaved w = (Resolved tt, w') ->
  List.map filepath (st_photos w') = List.map filepath l /\
  length (st_photos w') = length l.
Proof.
  intros Hg Hl. rewrite loadSaved_run.
  destruct (settle env (Preferences_get PHOTO_STORAGE) w) as [r w1].
  simpl in Hg. subst r. rewrite (parse_index_parsed v l _ Hl).
  destruct (platform env "hybrid"); simpl.
  - intros Hr. inversion Hr; subst. auto.
  - destruct (run env (read_each l) _) as [[loaded | e] w3] eqn:Hr;
      [| discriminate].
    intros H. inversion H; subst; clear H. simpl.
    eapply read_each_filepaths; eauto.
Qed.

End LoadSaved.

(** C8: when the read of the index returns no value, [loadSaved] resolves
    and the list in memory is empty. *)
Theorem loadSaved_empty_start (env : Env) (w : World) :
  fst (settle env (Preferences_get PHOTO_STORAGE) w) = Resolved None ->
  exists w', run env loadSaved w = (Resolved tt, w') /\ st_photos w' = [].
Proof.
  intros H. rewrite loadSaved_run.
  destruct (settle env (Preferences_get PHOTO_STORAGE) w) as [r w1].
  simpl in H. subst r. rewrite parse_index_run.
  destruct (negb (platform env "hybrid")); simpl; eauto.
Qed.

Lemma loadSaved_empty_start_witness :
  exists w',
    run Examples.browser loadSaved Examples.fresh = (Resolved tt, w') /\
    st_photos w' = [].
Proof.
  apply (loadSaved_empty_start Examples.browser Examples.fresh).
  vm_compute. reflexivity.
Defined.

(** C5 (as stated, refuted): on a device, the record that [loadSaved] puts
    in memory carries the [webviewPath] found in the persisted index; it is
    not absent. *)
Lemma loadSaved_native_keeps_stored_path :
  let r := run Examples.device loadSaved Examples.device_cold in
  stored_index Examples.device_cold = Some (Json.stringify [Examples.device_shot]) /\
  fst r = Resolved tt /\
  st_photos (snd r) = [Examples.device_shot] /\
  List.map webviewPath (st_photos (snd r)) <> [None].
Proof.
  repeat split; try (vm_compute; reflexivity).
  vm_compute. discriminate.
Qed.

(** C5 (amended): a [loadSaved] that resolves puts in memory, on a native
    platform, the records exactly as the persisted index has them, stored
    [webviewPath] included; on a browser platform, records with the stored
    [filepath] whose [webviewPath] is the header
    ["data:image/jpeg;base64,"] followed by the content read from the Blob
    Store, whatever [webviewPath] the index held. *)
Theorem loadSaved_display_paths (env : Env) (w w' : World) (v : string)
    (l : list UserPhoto) :
  in_flight w = [] ->
  stored_index w = Some v ->
  Json.parse v = Some l ->
  run env loadSaved w = (Resolved tt, w') ->
  (native_hosted env -> st_photos w' = l) /\
  (browser_hosted env -> Forall2 (materialized (files w)) l (st_photos w')).
Proof.
  intros Hf Hv Hl Hr.
  pose proof (loadSaved_parsed env w w' v l Hf Hv Hl Hr) as H.
  unfold native_hosted, browser_hosted.
  destruct (platform env "hybrid"); split; intros; congruence.
Qed.

Lemma loadSaved_display_paths_witness :
  Forall2 (materialized (files Examples.browser_cold))
    [ {| filepath := "2.jpeg"; webviewPath := Some "blob:stale-2" |};
      {| filepath := "1.jpeg"; webviewPath := Some "blob:stale-1" |} ]
    (st_photos (snd (run Examples.browser loadSaved Examples.browser_cold))).
Proof.
  apply (loadSaved_display_paths Examples.browser Examples.browser_cold
           (snd (run Examples.browser loadSaved Examples.browser_cold))
           (Json.stringify
              [ {| filepath := "2.jpeg"; webviewPath := Some "blob:stale-2" |};
                {| filepath := "1.jpeg"; webviewPath := Some "blob:stale-1" |} ])).
  - reflexivity.
  - vm_compute. reflexivity.
  - vm_compute. reflexivity.
  - vm_compute. reflexivity.
  - vm_compute. reflexivity.
Defined.

(* ===================================================================== *)
(** ** Ordering *)
(* ===================================================================== *)

Lemma takePhoto_prepends (env : Env) (w w' : World) :
  run env (takePhoto (st_photos w)) w = (Resolved tt, w') ->
  exists saved, st_photos w' = saved :: st_photos w.
Proof.
  rewrite takePhoto_run.
  destruct (run env _ w) as [[saved | e] w1] eqn:Hq; [| discriminate].
  intros Hr. inversion Hr; subst w'; clear Hr.
  exists saved. reflexivity.
Qed.

(** C7: two captures in a row, each taken through the hook as rendered
    from the current state, leave the list [C2, C1, ...previous]; and a
    [loadSaved] that resolves leaves in memory the records of the persisted
    index in the order of the index. *)
Theorem gallery_ordering :
  (forall (env1 env2 : Env) (w w1 w2 : World),
      run env1 (gallery_takePhoto (render w)) w = (Resolved tt, w1) ->
      run env2 (gallery_takePhoto (render w1)) w1 = (Resolved tt, w2) ->
      exists c1 c2,
        st_photos w1 = c1 :: st_photos w /\
        st_photos w2 = c2 :: c1 :: st_photos w) /\
  (forall (env : Env) (w w' : World) (v : string) (l : list UserPhoto),
      fst (settle env (Preferences_get PHOTO_STORAGE) w) = Resolved (Some v) ->
      Json.parse v = Some l ->
      run env loadSaved w = (Resolved tt, w') ->
      List.map filepath (st_photos w') = List.map filepath l /\
      length (st_photos w') = length l).
Proof.
  split.
  - intros env1 env2 w w1 w2 H1 H2.
    destruct (takePhoto_prepends env1 w w1 H1) as (c1 & E1).
    destruct (takePhoto_prepends env2 w1 w2 H2) as (c2 & E2).
    exists c1, c2. split; [exact E1 | now rewrite E2, E1].
  - intros env w w' v l. apply loadSaved_filepaths.
Qed.

Lemma gallery_ordering_witness :
  (exists c1 c2,
     st_photos (snd (run Examples.browser (takePhoto []) Examples.fresh)) = [c1] /\
     st_photos
       (snd (run Examples.browser_later
               (takePhoto [Examples.shot])
               (snd (run Examples.browser (takePhoto []) Examples.fresh)))) =
     [c2; c1]) /\
  List.map filepath
    (st_photos (snd (run Examples.browser loadSaved Examples.browser_cold))) =
  ["2.jpeg"; "1.jpeg"].
Proof.
  split.
  - apply (proj1 gallery_ordering Examples.browser Examples.browser_later
             Examples.fresh
             (snd (run Examples.browser (takePhoto []) Examples.fresh))
             (snd (run Examples.browser_later (takePhoto [Examples.shot])
                     (snd (run Examples.browser (takePhoto []) Examples.fresh))))).
    + vm_compute. reflexivity.
    + vm_compute. reflexivity.
  - apply (proj2 gallery_ordering Examples.browser Examples.browser_cold
             (snd (run Examples.browser loadSaved Examples.browser_cold))
             (Json.stringify
                [ {| filepath := "2.jpeg"; webviewPath := Some "blob:stale-2" |};
                  {| filepath := "1.jpeg"; webviewPath := Some "blob:stale-1" |} ])
             [ {| filepath := "2.jpeg"; webviewPath := Some "blob:stale-2" |};
               {| filepath := "1.jpeg"; webviewPath := Some "blob:stale-1" |} ]).
    + vm_compute. reflexivity.
    + vm_compute. reflexivity.
    + vm_compute. reflexivity.
Defined.

(* ===================================================================== *)
(** ** The encoding helper and the data it hands to the Blob Store *)
(* ===================================================================== *)

Section Encoding.

Variable env : Env.

Lemma settle_fetch (i : option string) (w : World) :
  settle env (fetch i) w = (network env i, snd (settle env (fetch i) w)).
Proof. reflexivity. Qed.

Lemma settle_blob (r : Response) (w : World) :
  settle env (Response_blob r) w = (body r, snd (settle env (Response_blob r) w)).
Proof. reflexivity. Qed.

Lemma settle_reader (b : Blob) (w : World) :
  settle env (FileReader_readAsDataURL b) w =
  (Resolved (reader env b), snd (settle env (FileReader_readAsDataURL b) w)).
Proof. reflexivity. Qed.

Lemma written_data_app (evs evs' : list Event) :
  written_data (evs ++ evs') = written_data evs ++ written_data evs'.
Proof.
  induction evs as [| [c | c | l] evs IH]; simpl; auto;
    destruct c; simpl; auto; now f_equal.
Qed.

(** The helper settles with [encoded] and hands nothing to the Blob
    Store. *)
Lemma base64FromPath_run (file : option string) (w : World) :
  exists w' evs,
    run env (base64FromPath file) w = (encoded env file, w') /\
    trace w' = trace w ++ evs /\ written_data evs = [].
Proof.
  unfold base64FromPath, encoded. step_await. rewrite settle_fetch.
  destruct (settle_frame env (fetch file) w) as (_ & T1 & _).
  set (w1 := snd (settle env (fetch file) w)) in *.
  destruct (network env file) as [response | e].
  2: { exists w1, [Awaited (fetch file)]. auto. }
  step_await. rewrite settle_blob.
  destruct (settle_frame env (Response_blob response) w1) as (_ & T2 & _).
  set (w2 := snd (settle env (Response_blob response) w1)) in *.
  destruct (body response) as [blob | e].
  2: { exists w2, [Awaited (fetch file); Awaited (Response_blob response)].
       split; [reflexivity |]. split; [| reflexivity].
       rewrite T2, T1, <- app_assoc. reflexivity. }
  step_await. rewrite settle_reader.
  destruct (settle_frame env (FileReader_readAsDataURL blob) w2) as (_ & T3 & _).
  set (w3 := snd (settle env (FileReader_readAsDataURL blob) w2)) in *.
  exists w3, [Awaited (fetch file); Awaited (Response_blob response);
              Awaited (FileReader_readAsDataURL blob)].
  split; [| split; [| reflexivity]].
  - destruct (reader env blob) as [e | [s | bs |]]; reflexivity.
  - rewrite T3, T2, T1, <- !app_assoc. reflexivity.
Qed.

(** On a browser, [savePicture] hands to the Blob Store exactly the
    string the helper resolved with, under the given name. *)
Lemma savePicture_browser_writes (photo : Photo) (fileName : string) (w : World) :
  platform env "hybrid" = false ->
  written_data
    (events_since w (snd (run env (savePicture photo fileName) w))) =
  match encoded env (webPath photo) with
  | Resolved s => [(fileName, s)]
  | Rejected _ => []
  end.
Proof.
  intros Hb. unfold savePicture. step_ask.
  change (answer env (isPlatform "hybrid")) with (platform env "hybrid").
  rewrite Hb. cbv beta iota. rewrite run_mbind.
  destruct (base64FromPath_run (webPath photo) w) as (w1 & evs & -> & T1 & W1).
  destruct (encoded env (webPath photo)) as [s | e].
  - step_await.
    destruct (settle_frame env (Filesystem_writeFile fileName s (Some Data)) w1)
      as (_ & T2 & _).
    destruct (settle env (Filesystem_writeFile fileName s (Some Data)) w1)
      as [[uri | e] w2]; simpl in T2.
    + step_ask.
      change (answer env (isPlatform "hybrid")) with (platform env "hybrid").
      rewrite Hb. simpl.
      rewrite (events_since_app w w2 (evs ++ [Awaited
                 (Filesystem_writeFile fileName s (Some Data))])).
      * rewrite written_data_app, W1. reflexivity.
      * rewrite T2, T1, <- app_assoc. reflexivity.
    + simpl.
      rewrite (events_since_app w w2 (evs ++ [Awaited
                 (Filesystem_writeFile fileName s (Some Data))])).
      * rewrite written_data_app, W1. reflexivity.
      * rewrite T2, T1, <- app_assoc. reflexivity.
  - simpl. now rewrite (events_since_app w w1 evs T1).
Qed.

Lemma dataURL_scheme (b : Blob) : JsString.startsWith (dataURL b) "data:" = true.
Proof.
  unfold dataURL.
  change ("data:" +:+ ?x) with
    (String "d" (String "a" (String "t" (String "a" (String ":" x))))).
  cbn [JsString.startsWith Ascii.eqb Bool.eqb]. apply startsWith_nil.
Qed.

Lemma dataURL_has_colon (b : Blob) : JsString.contains ":" (dataURL b) = true.
Proof. reflexivity. Qed.

Lemma dataURL_not_bare (b : Blob) : dataURL b <> Base64.encode (blob_bytes b).
Proof.
  intros H. pose proof (dataURL_has_colon b) as Hc. rewrite H in Hc.
  rewrite Base64Facts.encode_no_colon in Hc. discriminate.
Qed.

End Encoding.

(** C10: [base64FromPath] resolves with the string the reader loaded,
    unchanged, or rejects: with the error of [fetch] or of
    [response.blob()], with the reader's error, or with
    ['method did not return a string'] when the reader's result is not a
    string.  The data URL a conforming reader loads begins with ["data:"],
    carries the base64 text after its header and is never the bare base64
    text.  On a browser the data handed to the Blob Store write is that
    resolved string itself. *)
Theorem base64FromPath_data_url (env : Env) (file : option string) (w : World) :
  fst (run env (base64FromPath file) w) = encoded env file /\
  (forall blob : Blob,
      JsString.startsWith (dataURL blob) "data:" = true /\
      dataURL blob <> Base64.encode (blob_bytes blob) /\
      exists header, dataURL blob = header +:+ Base64.encode (blob_bytes blob)) /\
  (forall (photo : Photo) (fileName : string),
      if platform env "hybrid" then True
      else
        written_data
          (events_since w (snd (run env (savePicture photo fileName) w))) =
        match encoded env (webPath photo) with
        | Resolved s => [(fileName, s)]
        | Rejected _ => []
        end).
Proof.
  split; [| split].
  - destruct (base64FromPath_run env file w) as (w' & evs & -> & _). reflexivity.
  - intros blob. split; [apply dataURL_scheme |]. split; [apply dataURL_not_bare |].
    exists ("data:" +:+ blob_type blob +:+ ";base64,").
    unfold dataURL. now rewrite !append_assoc.
  - intros photo fileName. destruct (platform env "hybrid") eqn:Hb; [exact I |].
    now apply savePicture_browser_writes.
Qed.

(* ===================================================================== *)
(** ** Capture, restart, load *)
(* ===================================================================== *)

Section RoundTrip.

Variable env : Env.

(** [savePicture] on a browser with nothing in flight, when the
    collaborators answer and the Blob Store accepts the write. *)
Lemma savePicture_browser_run (photo : Photo) (fileName s : string)
    (response : Response) (blob : Blob) (w : World) :
  platform env "hybrid" = false ->
  in_flight w = [] ->
  network env (webPath photo) = Resolved response ->
  body response = Resolved blob ->
  reader env blob = OnLoad (RString s) ->
  io_fault env (Filesystem_writeFile fileName s (Some Data)) = None ->
  exists w',
    run env (savePicture photo fileName) w =
      (Resolved {| filepath := fileName; webviewPath := webPath photo |}, w') /\
    files w' = <[fileName := stored_as env s]> (files w) /\
    in_flight w' = [] /\
    st_photos w' = st_photos w /\
    trace w' =
      trace w ++
      [Awaited (fetch (webPath photo)); Awaited (Response_blob response);
       Awaited (FileReader_readAsDataURL blob);
       Awaited (Filesystem_writeFile fileName s (Some Data))].
Proof.
  intros Hb Hf Hnet Hbody Hread Hio.
  assert (Hrun : run env (savePicture photo fileName) w =
            (Resolved {| filepath := fileName; webviewPath := webPath photo |},
             with_files (<[fileName := stored_as env s]> (files w))
               (log (Awaited (Filesystem_writeFile fileName s (Some Data)))
                  (log (Awaited (FileReader_readAsDataURL blob))
                     (log (Awaited (Response_blob response))
                        (log (Awaited (fetch (webPath photo))) w)))))).
  { unfold savePicture. step_ask.
    change (answer env (isPlatform "hybrid")) with (platform env "hybrid").
    rewrite Hb. cbv beta iota. rewrite run_mbind.
    unfold base64FromPath.
    step_await. rewrite (settle_idle env _ w Hf).
    unfold perform at 1. cbn [is_storage perform_ok]. rewrite Hnet.
    step_await. rewrite settle_idle by exact Hf.
    unfold perform at 1. cbn [is_storage perform_ok]. rewrite Hbody.
    step_await. rewrite settle_idle by exact Hf.
    unfold perform at 1. cbn [is_storage perform_ok]. rewrite Hread.
    cbn [run]. step_await. rewrite settle_idle by exact Hf.
    unfold perform at 1. cbn [is_storage perform_ok]. rewrite Hio.
    step_ask.
    change (answer env (isPlatform "hybrid")) with (platform env "hybrid").
    rewrite Hb. reflexivity. }
  rewrite Hrun.
  eexists. split; [reflexivity |]. repeat split; auto.
  simpl. now rewrite <- !app_assoc.
Qed.

Lemma quiesce_single_write (k v : string) (w : World) :
  in_flight w = [Preferences_set k v] ->
  io_fault env (Preferences_set k v) = None ->
  preferences (quiesce env w) !! k = Some v /\
  files (quiesce env w) = files w.
Proof.
  intros Hf Hio. split.
  - apply (quiesce_last_write env [] k v w); auto.
  - unfold quiesce. now apply (complete_index_write_files env _ k v).
Qed.

End RoundTrip.

(* ===================================================================== *)
(** ** Further properties: what a capture builds on *)
(* ===================================================================== *)

Section CaptureFacts.

Variable env : Env.

(** A resolved [takePhoto]: the quiet prefix, then the state and the index
    write, both built from the list the closure captured. *)
Lemma takePhoto_resolved (photos : list UserPhoto) (w w' : World) :
  run env (takePhoto photos) w = (Resolved tt, w') ->
  exists saved w1 evs,
    w' = issue (Preferences_set PHOTO_STORAGE (Json.stringify (saved :: photos)))
           (set_photos (saved :: photos) w1) /\
    st_photos w1 = st_photos w /\
    trace w1 = trace w ++ evs /\ Forall harmless evs.
Proof.
  rewrite takePhoto_run.
  destruct (run env _ w) as [[saved | e] w1] eqn:Hq; [| discriminate].
  intros Hr. inversion Hr; subst w'; clear Hr.
  destruct (quiet_run env _ (capture_quiet) _ _ _ Hq) as (Q1 & _ & _ & evs & Q4 & Q5).
  exists saved, w1, evs. auto.
Qed.

End CaptureFacts.

(** X1: whatever the state cell holds when it runs, a [takePhoto] that
    resolves sets the state to the new record followed by the list its
    closure captured, and writes that same list to the index: it sets the
    state once, then issues one index write, after awaits only. *)
Theorem takePhoto_uses_captured_list (env : Env) (photos : list UserPhoto)
    (w w' : World) :
  run env (takePhoto photos) w = (Resolved tt, w') ->
  exists saved evs,
    st_photos w' = saved :: photos /\
    events_since w w' =
      evs ++ [StateSet (saved :: photos);
              Fired (Preferences_set PHOTO_STORAGE (Json.stringify (saved :: photos)))] /\
    Forall harmless evs.
Proof.
  intros Hr. destruct (takePhoto_resolved env photos w w' Hr)
    as (saved & w1 & evs & -> & _ & T & Hh).
  exists saved, evs. split; [reflexivity |]. split; [| exact Hh].
  apply events_since_app. simpl. rewrite T, <- !app_assoc. reflexivity.
Qed.

(** Two captures started from the same render: the second one drops the
    record of the first. *)
Lemma takePhoto_uses_captured_list_witness :
  exists saved evs,
    st_photos
      (snd (run Examples.browser_later (takePhoto [])
              (snd (run Examples.browser (takePhoto []) Examples.fresh)))) =
    [saved] /\
    events_since (snd (run Examples.browser (takePhoto []) Examples.fresh))
      (snd (run Examples.browser_later (takePhoto [])
              (snd (run Examples.browser (takePhoto []) Examples.fresh)))) =
      evs ++ [StateSet [saved];
              Fired (Preferences_set PHOTO_STORAGE (Json.stringify [saved]))].
Proof.
  destruct (takePhoto_uses_captured_list Examples.browser_later []
              (snd (run Examples.browser (takePhoto []) Examples.fresh))
              (snd (run Examples.browser_later (takePhoto [])
                      (snd (run Examples.browser (takePhoto []) Examples.fresh)))))
    as (saved & evs & H1 & H2 & _).
  - vm_compute. reflexivity.
  - exists saved, evs. split; [exact H1 | exact H2].
Defined.

(** X2: [savePicture] never sets the state and never writes the index,
    whether it resolves or rejects. *)
Theorem savePicture_leaves_state_and_index (env : Env) (photo : Photo)
    (fileName : string) (w : World) :
  st_photos (snd (run env (savePicture photo fileName) w)) = st_photos w /\
  Forall harmless (events_since w (snd (run env (savePicture photo fileName) w))) /\
  (in_flight w = [] ->
   preferences (snd (run env (savePicture photo fileName) w)) = preferences w).
Proof.
  destruct (run env (savePicture photo fileName) w) as [r w'] eqn:Hr.
  destruct (quiet_run env _ (savePicture_quiet photo fileName) _ _ _ Hr)
    as (Q1 & _ & Q3 & evs & Q4 & Q5).
  simpl. split; [exact Q1 |]. split; [| exact Q3].
  now rewrite (events_since_app _ _ _ Q4).
Qed.

(* ===================================================================== *)
(** ** Further properties: file names *)
(* ===================================================================== *)

Section FileNames.

Import JsString.

Lemma contains_append (c : ascii) (a b : string) :
  contains c (a +:+ b) = contains c a || contains c b.
Proof.
  induction a as [| x a IH]; [reflexivity |].
  cbn [String.append contains]. rewrite IH. now destruct (Ascii.eqb x c).
Qed.

Lemma last_segment_dir_name (dir name : string) :
  contains "/" name = false -> last_segment (dir +:+ "/" +:+ name) = name.
Proof.
  intros Hn. induction dir as [| c dir IH].
  - cbn [String.append]. rewrite last_segment_cons by reflexivity.
    now rewrite Hn.
  - change (String c dir +:+ "/" +:+ name)
      with (String c (dir +:+ "/" +:+ name)).
    assert (Hs : contains "/" (dir +:+ "/" +:+ name) = true).
    { rewrite contains_append. cbn [String.append contains Ascii.eqb Bool.eqb].
      apply orb_true_r. }
    rewrite last_segment_cons by (cbn [contains]; rewrite Hs;
                                  now destruct (Ascii.eqb c "/")).
    now rewrite Hs.
Qed.

(** The decimal digits of a number have no separator. *)
Lemma string_of_uint_no_slash (d : Decimal.uint) :
  contains "/" (NilEmpty.string_of_uint d) = false.
Proof. induction d; simpl; auto. Qed.

Lemma timestamp_name_no_slash (n : N) :
  contains "/" (ofNumber n +:+ ".jpeg") = false.
Proof.
  rewrite contains_append. unfold ofNumber.
  now rewrite string_of_uint_no_slash.
Qed.

End FileNames.

(** X3: the name [deletePhoto] derives from [dir/name] is [name] when
    [name] has no ['/'], and a [filepath] without ['/'] is its own name; in
    particular the name of a capture, ["<timestamp>.jpeg"], is its own
    name. *)
Theorem filename_of_dir_name (dir name : string) :
  JsString.contains "/" name = false ->
  filename_of (dir +:+ "/" +:+ name) = name /\
  filename_of name = name /\
  forall n : N,
    filename_of (JsString.ofNumber n +:+ ".jpeg") = JsString.ofNumber n +:+ ".jpeg".
Proof.
  intros Hn. split; [| split].
  - rewrite filename_of_last_segment. now apply last_segment_dir_name.
  - rewrite filename_of_last_segment. now apply last_segment_no_slash.
  - intros n. rewrite filename_of_last_segment.
    apply last_segment_no_slash, timestamp_name_no_slash.
Qed.

Lemma filename_of_dir_name_witness :
  filename_of ("/data/files" +:+ "/" +:+ "1700000000000.jpeg") =
    "1700000000000.jpeg" /\
  filename_of "1700000000000.jpeg" = "1700000000000.jpeg".
Proof.
  destruct (filename_of_dir_name "/data/files" "1700000000000.jpeg")
    as (H1 & H2 & _).
  - reflexivity.
  - split; [exact H1 | exact H2].
Defined.

(* ===================================================================== *)
(** ** Further properties: where the index ends up *)
(* ===================================================================== *)

Section IndexFacts.

Variable env : Env.

(** What a settlement does to the index depends on the index only. *)
Lemma perform_preferences_ext (c : Call) (w w2 : World) :
  preferences w = preferences w2 ->
  preferences (snd (perform env c w)) = preferences (snd (perform env c w2)).
Proof.
  intros H. unfold perform.
  destruct (is_storage c); [destruct (io_fault env c) |]; simpl; auto;
    destruct c as [o | [f|] [[]|] | f d dir | f dir | k | k v | i | r | b];
    simpl; auto;
    try (destruct (files w !! f); destruct (files w2 !! f); simpl; auto).
  all: now rewrite H.
Qed.

(** Only a write of the index changes it. *)
Lemma perform_preferences (c : Call) (w : World) :
  (forall k v, c <> Preferences_set k v) ->
  preferences (snd (perform env c w)) = preferences w.
Proof.
  intros Hc. unfold perform.
  destruct (is_storage c); [destruct (io_fault env c) |]; simpl; auto;
    destruct c as [o | [f|] [[]|] | f d dir | f dir | k | k v | i | r | b];
    simpl; auto; try (destruct (files w !! f); simpl; auto).
  all: now destruct (Hc k v).
Qed.

Lemma complete_preferences_ext (n : nat) (w w2 : World) :
  preferences w = preferences w2 ->
  in_flight w = in_flight w2 ->
  preferences (complete env n w) = preferences (complete env n w2).
Proof.
  revert w w2. induction n as [| n IH]; intros w w2 Hp Hf; simpl; [exact Hp |].
  rewrite <- Hf. destruct (in_flight w) as [| c rest]; [exact Hp |].
  apply IH.
  - now apply perform_preferences_ext.
  - destruct (perform_frame env c (with_in_flight rest w)) as (_ & -> & _).
    destruct (perform_frame env c (with_in_flight rest w2)) as (_ & -> & _).
    reflexivity.
Qed.

Lemma quiesce_preferences_ext (w w2 : World) :
  preferences w = preferences w2 ->
  in_flight w = in_flight w2 ->
  preferences (quiesce env w) = preferences (quiesce env w2).
Proof.
  intros Hp Hf. unfold quiesce. rewrite <- Hf.
  now apply complete_preferences_ext.
Qed.

(** Whatever the outcome of [deletePhoto], the index ends up holding the
    reduced list, unless the store fails the write. *)
Lemma deletePhoto_index_eventually (photos : list UserPhoto) (photo : UserPhoto)
    (w : World) :
  io_fault env (Preferences_set PHOTO_STORAGE
                  (Json.stringify (without photo photos))) = None ->
  stored_index (quiesce env (snd (run env (deletePhoto photos photo) w))) =
    Some (Json.stringify (without photo photos)).
Proof.
  intros Hio. rewrite deletePhoto_run. unfold settle.
  set (index_write := Preferences_set PHOTO_STORAGE
                        (Json.stringify (without photo photos))).
  set (blob_delete := Filesystem_deleteFile (filename_of (filepath photo)) (Some Data)).
  set (w1 := log (Awaited blob_delete) (issue index_write w)).
  set (w2 := complete env (host_progress env w1) w1).
  assert (Hq : stored_index (quiesce env w2) =
               Some (Json.stringify (without photo photos))).
  { subst w2. rewrite quiesce_complete. unfold stored_index.
    apply (quiesce_last_write env (in_flight w) _ _ w1); [reflexivity | exact Hio]. }
  destruct (perform_frame env blob_delete w2) as (_ & P2 & _).
  assert (P4 : preferences (snd (perform env blob_delete w2)) = preferences w2)
    by (apply perform_preferences; intros k v; discriminate).
  destruct (perform env blob_delete w2) as [[[] | e] w3]; simpl in *;
    rewrite <- Hq; unfold stored_index; f_equal;
    apply quiesce_preferences_ext; auto.
Qed.

(** A [deletePhoto] whose file is in the Blob Store, with nothing in
    flight and a store that does not fail the delete. *)
Lemma deletePhoto_present_run (photos : list UserPhoto) (photo : UserPhoto)
    (d : string) (w : World) :
  in_flight w = [] ->
  files w !! filename_of (filepath photo) = Some d ->
  io_fault env (Filesystem_deleteFile (filename_of (filepath photo)) (Some Data))
    = None ->
  exists w',
    run env (deletePhoto photos photo) w = (Resolved tt, w') /\
    st_photos w' = without photo photos /\
    files w' = delete (filename_of (filepath photo)) (files w).
Proof.
  intros Hf Hblob Hio. rewrite deletePhoto_run. unfold settle.
  set (index_write := Preferences_set PHOTO_STORAGE
                        (Json.stringify (without photo photos))).
  set (blob_delete := Filesystem_deleteFile (filename_of (filepath photo)) (Some Data)).
  set (w1 := log (Awaited blob_delete) (issue index_write w)).
  set (w2 := complete env (host_progress env w1) w1).
  assert (Hfiles : files w2 = files w).
  { subst w2. rewrite (complete_index_write_files env _ PHOTO_STORAGE
                         (Json.stringify (without photo photos)) w1);
      [reflexivity |]. simpl. now rewrite Hf. }
  clearbody w2. subst blob_delete.
  unfold perform. cbn [is_storage perform_ok].
  rewrite Hio, Hfiles, Hblob.
  eexists. split; [reflexivity |]. split; reflexivity.
Qed.

Lemma without_no_match (photo : UserPhoto) (photos : list UserPhoto) (p : UserPhoto) :
  In p (without photo photos) -> filepath p <> filepath photo.
Proof.
  unfold without. intros H. apply List.filter_In in H. destruct H as (_ & H).
  apply Bool.negb_true_iff in H. now apply String.eqb_neq in H.
Qed.

End IndexFacts.

(** X4: a [deletePhoto] whose file is in the Blob Store (nothing in
    flight, the store does not fail) resolves: every record with the
    target's [filepath] is gone from the list in memory, the file is gone
    from the Blob Store, and the index holds the serialization of the list
    in memory once the issued write completes. *)
Theorem deletePhoto_removes_record (env : Env) (w : World) (photo : UserPhoto)
    (d : string) :
  in_flight w = [] ->
  files w !! filename_of (filepath photo) = Some d ->
  io_fault env (Filesystem_deleteFile (filename_of (filepath photo)) (Some Data))
    = None ->
  io_fault env (Preferences_set PHOTO_STORAGE
                  (Json.stringify (without photo (st_photos w)))) = None ->
  exists w',
    run env (gallery_deletePhoto (render w) photo) w = (Resolved tt, w') /\
    st_photos w' = without photo (st_photos w) /\
    (forall p, In p (st_photos w') -> filepath p <> filepath photo) /\
    files w' !! filename_of (filepath photo) = None /\
    stored_index (quiesce env w') = Some (Json.stringify (st_photos w')).
Proof.
  intros Hf Hblob Hiod Hios.
  unfold render, usePhotoGallery, gallery_deletePhoto.
  destruct (deletePhoto_present_run env (st_photos w) photo d w Hf Hblob Hiod)
    as (w' & Hrun & Hst & Hfiles).
  exists w'. split; [exact Hrun |]. split; [exact Hst |]. split; [| split].
  - intros p Hp. rewrite Hst in Hp. now apply (without_no_match photo (st_photos w)).
  - rewrite Hfiles. apply lookup_delete_eq.
  - pose proof (deletePhoto_index_eventually env (st_photos w) photo w Hios) as H.
    rewrite Hrun in H. simpl in H. now rewrite Hst.
Qed.

Lemma deletePhoto_removes_record_witness :
  exists w',
    run Examples.browser
      (gallery_deletePhoto (render Examples.one_photo) Examples.shot)
      Examples.one_photo = (Resolved tt, w') /\
    st_photos w' = [] /\
    files w' !! "1700000000000.jpeg" = None.
Proof.
  destruct (deletePhoto_removes_record Examples.browser Examples.one_photo
              Examples.shot "AQID")
    as (w' & H1 & H2 & _ & H4 & _); try reflexivity.
  exists w'. split; [exact H1 |]. split; [exact H2 | exact H4].
Defined.

(* ===================================================================== *)
(** ** Further properties: the native branch and whole operations *)
(* ===================================================================== *)

Section WholeOperations.

Variable env : Env.

(** [savePicture] on a device with nothing in flight, when the capture's
    file can be read and the Blob Store accepts the write. *)
Lemma savePicture_native_run (photo : Photo) (fileName d : string) (w : World) :
  platform env "hybrid" = true ->
  in_flight w = [] ->
  io_fault env (Filesystem_readFile (path photo) None) = None ->
  device_read env (path photo) = Resolved d ->
  io_fault env (Filesystem_writeFile fileName d (Some Data)) = None ->
  run env (savePicture photo fileName) w =
    (Resolved {| filepath := write_uri env fileName;
                 webviewPath := Some (convertFileSrc env (write_uri env fileName)) |},
     with_files (<[fileName := stored_as env d]> (files w))
       (log (Awaited (Filesystem_writeFile fileName d (Some Data)))
          (log (Awaited (Filesystem_readFile (path photo) None)) w))).
Proof.
  intros Hn Hf Hior Hread Hiow.
  unfold savePicture. step_ask.
  change (answer env (isPlatform "hybrid")) with (platform env "hybrid").
  rewrite Hn. cbv beta iota.
  step_await. rewrite (settle_idle env _ w Hf).
  unfold perform at 1. cbn [is_storage perform_ok]. rewrite Hior.
  destruct (path photo) as [pth |]; rewrite Hread.
  all: step_await; rewrite settle_idle by exact Hf.
  all: unfold perform at 1; cbn [is_storage perform_ok]; rewrite Hiow.
  all: step_ask.
  all: change (answer env (isPlatform "hybrid")) with (platform env "hybrid").
  all: rewrite Hn; reflexivity.
Qed.

(** [takePhoto] around a [savePicture] whose run is known. *)
Lemma takePhoto_with_save (photos : list UserPhoto) (photo : Photo)
    (saved : UserPhoto) (w w' : World) :
  in_flight w = [] ->
  camera env CAPTURE_OPTIONS = Resolved photo ->
  run env (savePicture photo (JsString.ofNumber (clock env) +:+ ".jpeg"))
    (log (Awaited (Camera_getPhoto CAPTURE_OPTIONS)) w) = (Resolved saved, w') ->
  run env (takePhoto photos) w =
    (Resolved tt,
     issue (Preferences_set PHOTO_STORAGE (Json.stringify (saved :: photos)))
       (set_photos (saved :: photos) w')).
Proof.
  intros Hf Hcam Hsave. rewrite takePhoto_run.
  step_await. rewrite (settle_idle env _ w Hf).
  unfold perform at 1. cbn [is_storage perform_ok]. rewrite Hcam.
  step_ask. change (answer env Date_now) with (clock env). cbv beta.
  now rewrite Hsave.
Qed.

(** A capture on a browser, step by step. *)
Lemma takePhoto_browser_run (photos : list UserPhoto) (photo : Photo)
    (response : Response) (blob : Blob) (s : string) (w : World) :
  platform env "hybrid" = false ->
  in_flight w = [] ->
  camera env CAPTURE_OPTIONS = Resolved photo ->
  network env (webPath photo) = Resolved response ->
  body response = Resolved blob ->
  reader env blob = OnLoad (RString s) ->
  io_fault env (Filesystem_writeFile (JsString.ofNumber (clock env) +:+ ".jpeg") s
                  (Some Data)) = None ->
  exists w1,
    run env (takePhoto photos) w = (Resolved tt, w1) /\
    st_photos w1 =
      {| filepath := JsString.ofNumber (clock env) +:+ ".jpeg";
         webviewPath := webPath photo |} :: photos /\
    files w1 = <[JsString.ofNumber (clock env) +:+ ".jpeg" := stored_as env s]> (files w) /\
    in_flight w1 =
      [Preferences_set PHOTO_STORAGE
         (Json.stringify ({| filepath := JsString.ofNumber (clock env) +:+ ".jpeg";
                             webviewPath := webPath photo |} :: photos))].
Proof.
  intros Hb Hf Hcam Hnet Hbody Hread Hio.
  destruct (savePicture_browser_run env photo _ s response blob
              (log (Awaited (Camera_getPhoto CAPTURE_OPTIONS)) w)
              Hb Hf Hnet Hbody Hread Hio) as (w' & Hrun & Hfiles & Hfl & _ & _).
  eexists. split; [apply (takePhoto_with_save photos photo _ w w' Hf Hcam Hrun) |].
  simpl. rewrite Hfiles, Hfl. auto.
Qed.

(** A capture on a device, step by step. *)
Lemma takePhoto_native_run (photos : list UserPhoto) (photo : Photo)
    (d : string) (w : World) :
  platform env "hybrid" = true ->
  in_flight w = [] ->
  camera env CAPTURE_OPTIONS = Resolved photo ->
  io_fault env (Filesystem_readFile (path photo) None) = None ->
  device_read env (path photo) = Resolved d ->
  io_fault env (Filesystem_writeFile (JsString.ofNumber (clock env) +:+ ".jpeg") d
                  (Some Data)) = None ->
  exists w1,
    run env (takePhoto photos) w = (Resolved tt, w1) /\
    st_photos w1 =
      {| filepath := write_uri env (JsString.ofNumber (clock env) +:+ ".jpeg");
         webviewPath :=
           Some (convertFileSrc env
                   (write_uri env (JsString.ofNumber (clock env) +:+ ".jpeg"))) |}
      :: photos /\
    files w1 = <[JsString.ofNumber (clock env) +:+ ".jpeg" := stored_as env d]> (files w) /\
    in_flight w1 =
      [Preferences_set PHOTO_STORAGE
         (Json.stringify
            ({| filepath := write_uri env (JsString.ofNumber (clock env) +:+ ".jpeg");
                webviewPath :=
                  Some (convertFileSrc env
                          (write_uri env (JsString.ofNumber (clock env) +:+ ".jpeg"))) |}
             :: photos))] /\
    written_data (events_since w w1) =
      [(JsString.ofNumber (clock env) +:+ ".jpeg", d)].
Proof.
  intros Hn Hf Hcam Hior Hread Hiow.
  pose proof (savePicture_native_run photo _ d
                (log (Awaited (Camera_getPhoto CAPTURE_OPTIONS)) w)
                Hn Hf Hior Hread Hiow) as Hrun.
  eexists. split; [apply (takePhoto_with_save photos photo _ w _ Hf Hcam Hrun) |].
  simpl. rewrite Hf. repeat split.
  unfold events_since. simpl. rewrite <- !app_assoc. simpl.
  now rewrite drop_app_length.
Qed.

(** After the index write of a single pending capture or delete has landed,
    the other tiers are as they were. *)
Lemma quiesce_single_frame (k v : string) (w : World) :
  in_flight w = [Preferences_set k v] ->
  st_photos (quiesce env w) = st_photos w /\
  files (quiesce env w) = files w /\
  in_flight (quiesce env w) = [].
Proof.
  intros Hf. destruct (quiesce_frame env w) as (H1 & _ & H3).
  split; [exact H1 |]. split; [| exact H3].
  unfold quiesce. now apply (complete_index_write_files env _ k v).
Qed.

Lemma without_head (photo : UserPhoto) (photos : list UserPhoto) :
  without photo (photo :: photos) = without photo photos.
Proof. unfold without. simpl. now rewrite String.eqb_refl. Qed.

End WholeOperations.

(** What a native [loadSaved] does with an index it can read. *)
Lemma loadSaved_native_run (env : Env) (w : World) (l : list UserPhoto) :
  platform env "hybrid" = true ->
  in_flight w = [] ->
  io_fault env (Preferences_get PHOTO_STORAGE) = None ->
  stored_index w = Some (Json.stringify l) ->
  run env loadSaved w =
    (Resolved tt, set_photos l (log (Awaited (Preferences_get PHOTO_STORAGE)) w)).
Proof.
  intros Hn Hf Hio Hv. rewrite loadSaved_run.
  rewrite (settle_get_idle env w Hf Hio), Hv.
  rewrite (parse_index_parsed env _ l _ (JsonFacts.parse_stringify l)).
  rewrite Hn. reflexivity.
Qed.

(** X5: on a device, [savePicture] writes under the given name exactly the
    data read from the capture's path, and returns the record whose
    [filepath] is the URI the Filesystem reports and whose [webviewPath]
    is that URI rewritten by [Capacitor.convertFileSrc]. *)
Theorem savePicture_native (env : Env) (photo : Photo) (fileName d : string)
    (w : World) :
  native_hosted env ->
  in_flight w = [] ->
  io_fault env (Filesystem_readFile (path photo) None) = None ->
  device_read env (path photo) = Resolved d ->
  io_fault env (Filesystem_writeFile fileName d (Some Data)) = None ->
  exists w',
    run env (savePicture photo fileName) w =
      (Resolved {| filepath := write_uri env fileName;
                   webviewPath := Some (convertFileSrc env (write_uri env fileName)) |},
       w') /\
    written_data (events_since w w') = [(fileName, d)] /\
    read_names (events_since w w') = [path photo] /\
    files w' !! fileName = Some (stored_as env d).
Proof.
  intros Hn Hf Hior Hread Hiow.
  eexists. split; [apply (savePicture_native_run env photo fileName d w
                            Hn Hf Hior Hread Hiow) |].
  unfold events_since. simpl. rewrite <- !app_assoc, drop_app_length. simpl.
  repeat split. apply lookup_insert_eq.
Qed.

Lemma savePicture_native_witness :
  exists w',
    run Examples.device
      (savePicture {| path := Some "file:///tmp/capture.jpg"; webPath := None |}
         "1700000000000.jpeg") Examples.fresh =
      (Resolved Examples.device_shot, w') /\
    written_data (events_since Examples.fresh w') = [("1700000000000.jpeg", "AQID")].
Proof.
  destruct (savePicture_native Examples.device
              {| path := Some "file:///tmp/capture.jpg"; webPath := None |}
              "1700000000000.jpeg" "AQID" Examples.fresh)
    as (w' & H1 & H2 & _); try reflexivity.
  exists w'. split; [exact H1 | exact H2].
Defined.

Lemma without_absent (photo : UserPhoto) (photos : list UserPhoto) :
  (forall p, In p photos -> filepath p <> filepath photo) ->
  without photo photos = photos.
Proof.
  intros H. unfold without. induction photos as [| q l IH]; [reflexivity |].
  simpl. destruct (String.eqb (filepath q) (filepath photo)) eqn:E.
  - apply String.eqb_eq in E. destruct (H q (or_introl eq_refl) E).
  - simpl. f_equal. apply IH. intros p Hp. apply H. now right.
Qed.


(** The only file [deletePhoto] asks the Blob Store to delete. *)
Lemma deletePhoto_deleted_names (env : Env) (w : World)
    (photos : list UserPhoto) (photo : UserPhoto) :
  deleted_names (events_since w (snd (run env (deletePhoto photos photo) w))) =
    [filename_of (filepath photo)].
Proof.
  rewrite deletePhoto_run.
  set (blob_delete := Filesystem_deleteFile (filename_of (filepath photo)) (Some Data)).
  set (w0 := issue _ w).
  destruct (settle_frame env blob_delete w0) as (_ & S2 & _).
  destruct (settle env blob_delete w0) as [[[] | e] w']; simpl in *.
  - rewrite (events_since_app w _ ([Fired (Preferences_set PHOTO_STORAGE
               (Json.stringify (without photo photos))); Awaited blob_delete;
               StateSet (without photo photos)])); [reflexivity |].
    simpl. rewrite S2. subst w0. simpl. now rewrite <- !app_assoc.
  - rewrite (events_since_app w _ ([Fired (Preferences_set PHOTO_STORAGE
               (Json.stringify (without photo photos))); Awaited blob_delete]));
      [reflexivity |].
    rewrite S2. subst w0. simpl. now rewrite <- !app_assoc.
Qed.

(** X6: on a browser, deleting the record a capture has just saved (once
    its index write has landed) resolves, removes the file the capture
    wrote and leaves in memory the list from before the capture, less any
    record that had the same [filepath]. *)
Theorem capture_then_delete_browser (env env2 : Env) (w : World) (photo : Photo)
    (response : Response) (blob : Blob) (s : string) :
  browser_hosted env ->
  in_flight w = [] ->
  camera env CAPTURE_OPTIONS = Resolved photo ->
  network env (webPath photo) = Resolved response ->
  body response = Resolved blob ->
  reader env blob = OnLoad (RString s) ->
  let name := JsString.ofNumber (clock env) +:+ ".jpeg" in
  let saved := {| filepath := name; webviewPath := webPath photo |} in
  io_fault env (Filesystem_writeFile name s (Some Data)) = None ->
  io_fault env2 (Filesystem_deleteFile name (Some Data)) = None ->
  exists w1 w2,
    run env (gallery_takePhoto (render w)) w = (Resolved tt, w1) /\
    run env2 (gallery_deletePhoto (render (quiesce env w1)) saved) (quiesce env w1) =
      (Resolved tt, w2) /\
    st_photos w2 = without saved (st_photos w) /\
    files w2 = delete name (files w) /\
    ((forall p, In p (st_photos w) -> filepath p <> name) ->
     st_photos w2 = st_photos w).
Proof.
  intros Hb Hf Hcam Hnet Hbody Hread name saved Hiow Hiod.
  unfold render, usePhotoGallery, gallery_takePhoto, gallery_deletePhoto.
  destruct (takePhoto_browser_run env (st_photos w) photo response blob s w
              Hb Hf Hcam Hnet Hbody Hread Hiow)
    as (w1 & Hrun & Hst & Hfiles & Hfl).
  fold name in Hst, Hfiles, Hfl. fold saved in Hst, Hfl.
  destruct (quiesce_single_frame env _ _ w1 Hfl) as (Q1 & Q2 & Q3).
  assert (Hname : filename_of (filepath saved) = name).
  { unfold saved, name. cbn [filepath]. rewrite filename_of_last_segment.
    apply last_segment_no_slash, timestamp_name_no_slash. }
  destruct (deletePhoto_present_run env2 (st_photos (quiesce env w1)) saved
              (stored_as env s) (quiesce env w1) Q3)
    as (w2 & Hdel & Hst2 & Hfiles2).
  { rewrite Hname, Q2, Hfiles. apply lookup_insert_eq. }
  { now rewrite Hname. }
  exists w1, w2. split; [exact Hrun |]. split; [exact Hdel |].
  assert (Hlist : st_photos w2 = without saved (st_photos w)).
  { rewrite Hst2, Q1, Hst. apply without_head. }
  split; [exact Hlist |]. split.
  - rewrite Hfiles2, Hname, Q2, Hfiles. apply delete_insert_eq.
  - intros Hfresh. rewrite Hlist. now apply without_absent.
Qed.

Lemma capture_then_delete_browser_witness :
  exists w1 w2,
    run Examples.browser (gallery_takePhoto (render Examples.fresh)) Examples.fresh =
      (Resolved tt, w1) /\
    run Examples.browser
      (gallery_deletePhoto (render (quiesce Examples.browser w1)) Examples.shot)
      (quiesce Examples.browser w1) = (Resolved tt, w2) /\
    st_photos w2 = without Examples.shot (st_photos Examples.fresh).
Proof.
  destruct (capture_then_delete_browser Examples.browser Examples.browser
              Examples.fresh
              {| path := None; webPath := Some "blob:http://localhost/7f3a" |}
              {| body := Resolved Examples.jpeg3 |} Examples.jpeg3
              (dataURL Examples.jpeg3))
    as (w1 & w2 & H1 & H2 & H3 & _); try reflexivity.
  exists w1, w2. split; [exact H1 |]. split; [exact H2 | exact H3].
Defined.

(** X7: on a device whose Filesystem reports the URI [dir/name] for the
    file [name], deleting the record a capture has just saved resolves and
    removes the file the capture wrote: the name derived from the record's
    [filepath] is the name the capture wrote under. *)
Theorem capture_then_delete_native (env env2 : Env) (w : World) (photo : Photo)
    (d dir : string) :
  native_hosted env ->
  in_flight w = [] ->
  camera env CAPTURE_OPTIONS = Resolved photo ->
  io_fault env (Filesystem_readFile (path photo) None) = None ->
  device_read env (path photo) = Resolved d ->
  let name := JsString.ofNumber (clock env) +:+ ".jpeg" in
  write_uri env name = dir +:+ "/" +:+ name ->
  io_fault env (Filesystem_writeFile name d (Some Data)) = None ->
  io_fault env2 (Filesystem_deleteFile name (Some Data)) = None ->
  exists w1 w2 saved,
    run env (gallery_takePhoto (render w)) w = (Resolved tt, w1) /\
    st_photos w1 = saved :: st_photos w /\
    filepath saved = dir +:+ "/" +:+ name /\
    run env2 (gallery_deletePhoto (render (quiesce env w1)) saved) (quiesce env w1) =
      (Resolved tt, w2) /\
    st_photos w2 = without saved (st_photos w) /\
    deleted_names (events_since (quiesce env w1) w2) = [name] /\
    files w2 = delete name (files w).
Proof.
  intros Hn Hf Hcam Hior Hread name Huri Hiow Hiod.
  unfold render, usePhotoGallery, gallery_takePhoto, gallery_deletePhoto.
  destruct (takePhoto_native_run env (st_photos w) photo d w
              Hn Hf Hcam Hior Hread Hiow)
    as (w1 & Hrun & Hst & Hfiles & Hfl & _).
  fold name in Hst, Hfiles, Hfl.
  set (saved := {| filepath := write_uri env name;
                   webviewPath := Some (convertFileSrc env (write_uri env name)) |})
    in *.
  destruct (quiesce_single_frame env _ _ w1 Hfl) as (Q1 & Q2 & Q3).
  assert (Hname : filename_of (filepath saved) = name).
  { unfold saved. cbn [filepath]. rewrite Huri, filename_of_last_segment.
    apply last_segment_dir_name, timestamp_name_no_slash. }
  destruct (deletePhoto_present_run env2 (st_photos (quiesce env w1)) saved
              (stored_as env d) (quiesce env w1) Q3)
    as (w2 & Hdel & Hst2 & Hfiles2).
  { rewrite Hname, Q2, Hfiles. apply lookup_insert_eq. }
  { now rewrite Hname. }
  exists w1, w2, saved. split; [exact Hrun |]. split; [exact Hst |].
  split; [exact Huri |]. split; [exact Hdel |]. split; [| split].
  - rewrite Hst2, Q1, Hst. apply without_head.
  - pose proof (deletePhoto_deleted_names env2 (quiesce env w1)
                  (st_photos (quiesce env w1)) saved) as Hev.
    rewrite Hdel in Hev. cbn [snd] in Hev. rewrite Hev. f_equal. exact Hname.
  - rewrite Hfiles2, Hname, Q2, Hfiles. apply delete_insert_eq.
Qed.

Lemma capture_then_delete_native_witness :
  exists w1 w2 saved,
    run Examples.device (gallery_takePhoto (render Examples.fresh)) Examples.fresh =
      (Resolved tt, w1) /\
    st_photos w1 = saved :: st_photos Examples.fresh /\
    filepath saved = "/data/files" +:+ "/" +:+ "1700000000000.jpeg" /\
    run Examples.device
      (gallery_deletePhoto (render (quiesce Examples.device w1)) saved)
      (quiesce Examples.device w1) = (Resolved tt, w2).
Proof.
  destruct (capture_then_delete_native Examples.device Examples.device
              Examples.fresh
              {| path := Some "file:///tmp/capture.jpg";
                 webPath := Some "http://localhost/_capacitor_file_/tmp/capture.jpg" |}
              "AQID" "/data/files")
    as (w1 & w2 & saved & H1 & H2 & H3 & H4 & _); try reflexivity.
  exists w1, w2, saved. repeat split; assumption.
Defined.


(* ===================================================================== *)
(** ** Further properties: restart on a device *)
(* ===================================================================== *)

(** A device that restarts on an index it can read. *)
Lemma reload_native (env env' : Env) (w1 : World) (l : list UserPhoto) :
  stored_index (quiesce env w1) = Some (Json.stringify l) ->
  platform env' "hybrid" = true ->
  io_fault env' (Preferences_get PHOTO_STORAGE) = None ->
  exists w2, run env' loadSaved (restart env w1) = (Resolved tt, w2) /\ st_photos w2 = l.
Proof.
  intros Hidx Hn Hio.
  eexists. split.
  - apply (loadSaved_native_run env' (restart env w1) l Hn eq_refl Hio). exact Hidx.
  - reflexivity.
Qed.

(** X8: after a capture-and-save that resolved, a restart on a device
    (once the index write has landed) loads exactly the list that was in
    memory, [webviewPath]s included, without reading any file. *)
Theorem native_reload_after_capture (env env' : Env) (w w1 : World) :
  run env (gallery_takePhoto (render w)) w = (Resolved tt, w1) ->
  io_fault env (Preferences_set PHOTO_STORAGE (Json.stringify (st_photos w1))) = None ->
  native_hosted env' ->
  io_fault env' (Preferences_get PHOTO_STORAGE) = None ->
  exists w2,
    run env' loadSaved (restart env w1) = (Resolved tt, w2) /\
    st_photos w2 = st_photos w1.
Proof.
  intros Hrun Hios Hn Hiog.
  apply reload_native; [| exact Hn | exact Hiog].
  destruct (takePhoto_resolved env (st_photos w) w w1 Hrun)
    as (saved & w0 & evs & -> & _).
  unfold stored_index.
  apply (quiesce_last_write env (in_flight w0)); [reflexivity | exact Hios].
Qed.

Lemma native_reload_after_capture_witness :
  exists w2,
    run Examples.device loadSaved
      (restart Examples.device
         (snd (run Examples.device (takePhoto []) Examples.fresh))) =
      (Resolved tt, w2) /\
    st_photos w2 =
      st_photos (snd (run Examples.device (takePhoto []) Examples.fresh)).
Proof.
  apply (native_reload_after_capture Examples.device Examples.device
           Examples.fresh).
  - vm_compute. reflexivity.
  - reflexivity.
  - reflexivity.
  - reflexivity.
Defined.

(** X9: after a delete that resolved, a restart on a device loads exactly
    the reduced list that was in memory: no record with the deleted
    [filepath] comes back. *)
Theorem native_reload_after_delete (env env' : Env) (w w1 : World)
    (photo : UserPhoto) :
  run env (gallery_deletePhoto (render w) photo) w = (Resolved tt, w1) ->
  io_fault env (Preferences_set PHOTO_STORAGE
                  (Json.stringify (without photo (st_photos w)))) = None ->
  native_hosted env' ->
  io_fault env' (Preferences_get PHOTO_STORAGE) = None ->
  exists w2,
    run env' loadSaved (restart env w1) = (Resolved tt, w2) /\
    st_photos w2 = st_photos w1 /\
    forall p, In p (st_photos w2) -> filepath p <> filepath photo.
Proof.
  unfold render, usePhotoGallery, gallery_deletePhoto.
  intros Hrun Hios Hn Hiog.
  pose proof (deletePhoto_index_eventually env (st_photos w) photo w Hios) as Hidx.
  rewrite Hrun in Hidx. cbn [snd] in Hidx.
  assert (Hst : st_photos w1 = without photo (st_photos w)).
  { revert Hrun. rewrite deletePhoto_run.
    destruct (settle env _ _) as [[[] | e] w0]; [| discriminate].
    intros H. inversion H. reflexivity. }
  destruct (reload_native env env' w1 _ Hidx Hn Hiog) as (w2 & Hload & Hl).
  exists w2. split; [exact Hload |]. split; [congruence |].
  intros p Hp. rewrite Hl in Hp. now apply (without_no_match photo (st_photos w)).
Qed.

Lemma native_reload_after_delete_witness :
  exists w2,
    run Examples.device loadSaved
      (restart MoreExamples.eager_device
         (snd (run MoreExamples.eager_device
                 (deletePhoto [Examples.shot] Examples.shot) Examples.one_photo))) =
      (Resolved tt, w2) /\
    st_photos w2 = [].
Proof.
  destruct (native_reload_after_delete MoreExamples.eager_device Examples.device
              Examples.one_photo
              (snd (run MoreExamples.eager_device
                      (deletePhoto [Examples.shot] Examples.shot) Examples.one_photo))
              Examples.shot) as (w2 & H1 & H2 & _).
  - vm_compute. reflexivity.
  - reflexivity.
  - reflexivity.
  - reflexivity.
  - exists w2. split; [exact H1 |]. rewrite H2. vm_compute. reflexivity.
Defined.

(** X10: two captures on a browser within the same millisecond get the
    same [filepath]: both records are in the list, and the one file in the
    Blob Store holds the data of the second capture. *)
Theorem same_millisecond_captures_collide (env env2 : Env) (w : World)
    (photo photo2 : Photo) (response response2 : Response) (blob blob2 : Blob)
    (s s2 : string) :
  browser_hosted env -> browser_hosted env2 ->
  clock env2 = clock env ->
  in_flight w = [] ->
  camera env CAPTURE_OPTIONS = Resolved photo ->
  network env (webPath photo) = Resolved response ->
  body response = Resolved blob ->
  reader env blob = OnLoad (RString s) ->
  camera env2 CAPTURE_OPTIONS = Resolved photo2 ->
  network env2 (webPath photo2) = Resolved response2 ->
  body response2 = Resolved blob2 ->
  reader env2 blob2 = OnLoad (RString s2) ->
  let name := JsString.ofNumber (clock env) +:+ ".jpeg" in
  io_fault env (Filesystem_writeFile name s (Some Data)) = None ->
  io_fault env2 (Filesystem_writeFile name s2 (Some Data)) = None ->
  exists w1 w2,
    run env (gallery_takePhoto (render w)) w = (Resolved tt, w1) /\
    run env2 (gallery_takePhoto (render (quiesce env w1))) (quiesce env w1) =
      (Resolved tt, w2) /\
    st_photos w2 =
      {| filepath := name; webviewPath := webPath photo2 |}
      :: {| filepath := name; webviewPath := webPath photo |} :: st_photos w /\
    files w2 = <[name := stored_as env2 s2]> (files w).
Proof.
  intros Hb Hb2 Hclock Hf Hcam Hnet Hbody Hread Hcam2 Hnet2 Hbody2 Hread2 name
    Hiow Hiow2.
  unfold render, usePhotoGallery, gallery_takePhoto.
  destruct (takePhoto_browser_run env (st_photos w) photo response blob s w
              Hb Hf Hcam Hnet Hbody Hread Hiow)
    as (w1 & Hrun & Hst & Hfiles & Hfl).
  fold name in Hst, Hfiles, Hfl.
  destruct (quiesce_single_frame env _ _ w1 Hfl) as (Q1 & Q2 & Q3).
  destruct (takePhoto_browser_run env2 (st_photos (quiesce env w1)) photo2
              response2 blob2 s2 (quiesce env w1) Hb2 Q3 Hcam2 Hnet2 Hbody2 Hread2)
    as (w2 & Hrun2 & Hst2 & Hfiles2 & _).
  { rewrite Hclock. exact Hiow2. }
  rewrite Hclock in Hst2, Hfiles2. fold name in Hst2, Hfiles2.
  exists w1, w2. split; [exact Hrun |]. split; [exact Hrun2 |]. split.
  - now rewrite Hst2, Q1, Hst.
  - rewrite Hfiles2, Q2, Hfiles. apply insert_insert_eq.
Qed.

Lemma same_millisecond_captures_collide_witness :
  exists w1 w2,
    run Examples.browser (gallery_takePhoto (render Examples.fresh)) Examples.fresh =
      (Resolved tt, w1) /\
    run MoreExamples.browser_same_ms
      (gallery_takePhoto (render (quiesce Examples.browser w1)))
      (quiesce Examples.browser w1) = (Resolved tt, w2) /\
    List.map filepath (st_photos w2) = ["1700000000000.jpeg"; "1700000000000.jpeg"] /\
    files w2 !! "1700000000000.jpeg" = Some "BAUG".
Proof.
  destruct (same_millisecond_captures_collide Examples.browser
              MoreExamples.browser_same_ms Examples.fresh
              {| path := None; webPath := Some "blob:http://localhost/7f3a" |}
              {| path := None; webPath := Some "blob:http://localhost/9c1d" |}
              {| body := Resolved Examples.jpeg3 |}
              {| body := Resolved {| blob_type := "image/jpeg";
                                     blob_bytes := [x04; x05; x06] |} |}
              Examples.jpeg3
              {| blob_type := "image/jpeg"; blob_bytes := [x04; x05; x06] |}
              (dataURL Examples.jpeg3)
              (dataURL {| blob_type := "image/jpeg"; blob_bytes := [x04; x05; x06] |}))
    as (w1 & w2 & H1 & H2 & H3 & H4); try reflexivity.
  exists w1, w2. split; [exact H1 |]. split; [exact H2 |]. split.
  - rewrite H3. reflexivity.
  - rewrite H4. vm_compute. reflexivity.
Defined.

(* ===================================================================== *)
(** ** Further properties: what a load touches *)
(* ===================================================================== *)

Section ReadOnly.

Variable env : Env.

Lemma read_only_bind {A B : Type} (m : Async A) (f : A -> Async B) :
  read_only m -> (forall a, read_only (f a)) -> read_only (bind m f).
Proof.
  intros Hm Hf.
  induction m as [a | e | c k IH | c k IH | q k IH | l k IH]; simpl in *; auto.
  destruct Hm as (Hc & Hk). split; auto.
Qed.

Lemma read_only_mbind {A B : Type} (m : Async A) (f : A -> Async B) :
  read_only m -> (forall a, read_only (f a)) -> read_only (m ≫= f).
Proof. apply read_only_bind. Qed.

Lemma read_only_quiet {A : Type} (p : Async A) : read_only p -> quiet p.
Proof.
  induction p as [a | e | c k IH | c k IH | q k IH | l k IH]; simpl; auto.
  intros (Hc & Hk). destruct c; try discriminate; auto.
Qed.

(** A read settles on the stores as they are and leaves them alone. *)
Lemma settle_read (c : Call) (w : World) :
  is_read c = true ->
  in_flight w = [] ->
  settle env c w = (fst (perform env c w), log (Awaited c) w).
Proof.
  intros Hc Hf. rewrite settle_idle by exact Hf. unfold perform.
  destruct c as [o | [f|] [[]|] | f d dir | f dir | k | k v | i | r | b];
    try discriminate; cbn [is_storage];
    destruct (io_fault env _); simpl; auto;
    destruct (files w !! f); reflexivity.
Qed.

(** The outcome of a read depends on the stores only. *)
Lemma perform_read_ext (c : Call) (w w2 : World) :
  is_read c = true ->
  preferences w = preferences w2 ->
  files w = files w2 ->
  fst (perform env c w) = fst (perform env c w2).
Proof.
  intros Hc Hp Hfl. unfold perform.
  destruct c as [o | [f|] [[]|] | f d dir | f dir | k | k v | i | r | b];
    try discriminate; cbn [is_storage];
    destruct (io_fault env _); simpl; auto.
  - rewrite Hfl. destruct (files w2 !! f); reflexivity.
  - now rewrite Hp.
Qed.

Lemma read_only_run {A : Type} (p : Async A) :
  read_only p ->
  forall w r w', in_flight w = [] -> run env p w = (r, w') ->
    st_photos w' = st_photos w /\ preferences w' = preferences w /\
    files w' = files w /\ in_flight w' = [] /\
    exists evs, trace w' = trace w ++ evs /\
                written_data evs = [] /\ deleted_names evs = [].
Proof.
  induction p as [a | e | c k IH | c k IH | q k IH | l k IH];
    intros Hq w r w' Hf Hr; simpl in *; try contradiction.
  - inversion Hr; subst. repeat split; auto. exists []. now rewrite app_nil_r.
  - inversion Hr; subst. repeat split; auto. exists []. now rewrite app_nil_r.
  - destruct Hq as (Hc & Hk). rewrite (settle_read c w Hc Hf) in Hr.
    assert (Hev : written_data [Awaited c] = [] /\ deleted_names [Awaited c] = [])
      by (destruct c; try discriminate; auto).
    destruct (fst (perform env c w)) as [x | e].
    + destruct (IH x (Hk x) (log (Awaited c) w) r w' Hf Hr)
        as (I1 & I2 & I3 & I4 & evs & I5 & I6 & I7).
      repeat split; auto. exists (Awaited c :: evs).
      split; [rewrite I5; simpl; now rewrite <- app_assoc |].
      destruct c; try discriminate; auto.
    + inversion Hr; subst. repeat split; auto. exists [Awaited c].
      split; [reflexivity | exact Hev].
  - eauto.
Qed.

(** Two runs of a read-only body on the same stores have the same
    outcome. *)
Lemma read_only_ext {A : Type} (p : Async A) :
  read_only p ->
  forall w w2,
    in_flight w = [] -> in_flight w2 = [] ->
    preferences w = preferences w2 -> files w = files w2 ->
    fst (run env p w) = fst (run env p w2).
Proof.
  induction p as [a | e | c k IH | c k IH | q k IH | l k IH];
    intros Hq w w2 Hf Hf2 Hp Hfl; simpl in *; try contradiction; auto.
  destruct Hq as (Hc & Hk).
  rewrite (settle_read c w Hc Hf), (settle_read c w2 Hc Hf2).
  rewrite (perform_read_ext c w w2 Hc Hp Hfl).
  destruct (fst (perform env c w2)) as [x | e]; [| reflexivity].
  now apply IH.
Qed.

Lemma read_each_read_only (l : list UserPhoto) : read_only (read_each l).
Proof.
  induction l as [| p rest IH]; [exact I |].
  cbn [read_each]. apply read_only_mbind; [simpl; auto |].
  intros file. apply read_only_mbind; [exact IH |]. intros rest'. exact I.
Qed.

Lemma parse_index_read_only (value : option string) : read_only (parse_index value).
Proof.
  unfold parse_index. destruct value as [[| c v] |]; try exact I.
  destruct (Json.parse (String c v)); exact I.
Qed.

(** Everything [loadSaved] does before [setPhotos]. *)
Lemma load_prefix_read_only :
  read_only (value ← await (Preferences_get PHOTO_STORAGE);
             photosInPreferences ← parse_index value;
             hybrid ← ask (isPlatform "hybrid");
             if negb hybrid then read_each photosInPreferences
             else Ret photosInPreferences).
Proof.
  apply read_only_mbind; [simpl; auto |]. intros value.
  apply read_only_mbind; [apply parse_index_read_only |]. intros l.
  apply read_only_mbind; [simpl; auto |]. intros hybrid.
  destruct hybrid; simpl; [exact I | apply read_each_read_only].
Qed.

Lemma loadSaved_prefix_run (w : World) :
  run env loadSaved w =
  match run env (value ← await (Preferences_get PHOTO_STORAGE);
                 photosInPreferences ← parse_index value;
                 hybrid ← ask (isPlatform "hybrid");
                 if negb hybrid then read_each photosInPreferences
                 else Ret photosInPreferences) w with
  | (Resolved loaded, w3) => (Resolved tt, set_photos loaded w3)
  | (Rejected e, w3) => (Rejected e, w3)
  end.
Proof.
  rewrite loadSaved_run. step_await.
  destruct (settle env (Preferences_get PHOTO_STORAGE) w) as [[value | e] w1];
    [| reflexivity].
  rewrite run_mbind.
  destruct (run env (parse_index value) w1) as [[l | e] w2]; [| reflexivity].
  step_ask. reflexivity.
Qed.

End ReadOnly.

(** X11: a [loadSaved] that rejects (the read of the index or of any file
    failed, or the index is not readable) leaves the list in memory as it
    was: it sets the state only after every file has been read. *)
Theorem loadSaved_rejected_sets_nothing (env : Env) (w w' : World) (e : JsError) :
  run env loadSaved w = (Rejected e, w') ->
  st_photos w' = st_photos w /\
  Forall harmless (events_since w w').
Proof.
  rewrite loadSaved_prefix_run.
  destruct (run env _ w) as [[loaded | e0] w3] eqn:Hq; [discriminate |].
  intros Hr. inversion Hr; subst; clear Hr.
  destruct (quiet_run env _ (read_only_quiet _ load_prefix_read_only) _ _ _ Hq)
    as (Q1 & _ & _ & evs & Q4 & Q5).
  split; [exact Q1 |]. now rewrite (events_since_app _ _ _ Q4).
Qed.

Lemma loadSaved_rejected_sets_nothing_witness :
  fst (run Examples.browser loadSaved MoreExamples.browser_dangling) =
    Rejected NotFound /\
  st_photos (snd (run Examples.browser loadSaved MoreExamples.browser_dangling)) =
    [Examples.shot].
Proof.
  split; [vm_compute; reflexivity |].
  apply (loadSaved_rejected_sets_nothing Examples.browser
           MoreExamples.browser_dangling
           (snd (run Examples.browser loadSaved MoreExamples.browser_dangling))
           NotFound).
  vm_compute. reflexivity.
Defined.

(** X12: with nothing in flight, [loadSaved] changes neither the index nor
    the files, whatever its outcome: it asks the Blob Store for no write
    and no delete and issues no index write. *)
Theorem loadSaved_reads_only (env : Env) (w : World) :
  in_flight w = [] ->
  preferences (snd (run env loadSaved w)) = preferences w /\
  files (snd (run env loadSaved w)) = files w /\
  written_data (events_since w (snd (run env loadSaved w))) = [] /\
  deleted_names (events_since w (snd (run env loadSaved w))) = [] /\
  in_flight (snd (run env loadSaved w)) = [].
Proof.
  intros Hf. rewrite loadSaved_prefix_run.
  destruct (run env _ w) as [r w3] eqn:Hq.
  destruct (read_only_run env _ load_prefix_read_only _ _ _ Hf Hq)
    as (_ & R2 & R3 & R4 & evs & R5 & R6 & R7).
  destruct r as [loaded | e]; simpl.
  - repeat split; auto.
    + rewrite (events_since_app w _ (evs ++ [StateSet loaded]))
        by (simpl; rewrite R5; now rewrite <- app_assoc).
      rewrite written_data_app, R6. reflexivity.
    + rewrite (events_since_app w _ (evs ++ [StateSet loaded]))
        by (simpl; rewrite R5; now rewrite <- app_assoc).
      clear -R7. induction evs as [| [c | c | l] evs IH]; simpl in *; auto;
        destruct c; simpl in *; auto; discriminate.
  - repeat split; auto; now rewrite (events_since_app w _ evs R5).
Qed.

Lemma loadSaved_reads_only_witness :
  preferences (snd (run Examples.browser loadSaved Examples.browser_cold)) =
    preferences Examples.browser_cold /\
  files (snd (run Examples.browser loadSaved Examples.browser_cold)) =
    files Examples.browser_cold.
Proof.
  destruct (loadSaved_reads_only Examples.browser Examples.browser_cold)
    as (H1 & H2 & _).
  - reflexivity.
  - split; [exact H1 | exact H2].
Defined.

(** X13: on a device, [loadSaved] reads no file from the Blob Store. *)
Theorem loadSaved_native_reads_no_file (env : Env) (w : World) :
  native_hosted env ->
  read_names (events_since w (snd (run env loadSaved w))) = [].
Proof.
  unfold native_hosted. intros Hn. rewrite loadSaved_run.
  destruct (settle_frame env (Preferences_get PHOTO_STORAGE) w) as (_ & S2 & _).
  destruct (settle env (Preferences_get PHOTO_STORAGE) w) as [[value | e] w1];
    simpl in S2.
  - rewrite parse_index_run.
    destruct (match value with
              | Some EmptyString => _ | Some (String _ _) => _ | None => _ end)
      as [l | e]; rewrite ?Hn; simpl.
    + rewrite (events_since_app w _ [Awaited (Preferences_get PHOTO_STORAGE);
                                     StateSet l]); [reflexivity |].
      simpl. rewrite S2, <- app_assoc. reflexivity.
    + now rewrite (events_since_app w _ _ S2).
  - simpl. now rewrite (events_since_app w _ _ S2).
Qed.

Lemma loadSaved_native_reads_no_file_witness :
  read_names
    (events_since Examples.device_cold
       (snd (run Examples.device loadSaved Examples.device_cold))) = [].
Proof.
  apply (loadSaved_native_reads_no_file Examples.device Examples.device_cold).
  reflexivity.
Defined.

(** X14: with nothing in flight, a [loadSaved] that resolved resolves
    again when run a second time and yields the same list: the result does
    not depend on the list that is in memory. *)
Theorem loadSaved_idempotent (env : Env) (w w1 : World) :
  in_flight w = [] ->
  run env loadSaved w = (Resolved tt, w1) ->
  exists w2,
    run env loadSaved w1 = (Resolved tt, w2) /\ st_photos w2 = st_photos w1.
Proof.
  intros Hf. rewrite !loadSaved_prefix_run.
  destruct (run env _ w) as [[loaded | e] w3] eqn:Hq; [| discriminate].
  intros Hr. inversion Hr; subst w1; clear Hr.
  destruct (read_only_run env _ load_prefix_read_only _ _ _ Hf Hq)
    as (_ & R2 & R3 & R4 & _).
  pose proof (read_only_ext env _ load_prefix_read_only w
                (set_photos loaded w3) Hf R4 (eq_sym R2) (eq_sym R3)) as Hext.
  rewrite Hq in Hext. cbn [fst] in Hext.
  destruct (run env _ (set_photos loaded w3)) as [r w4].
  cbn [fst] in Hext. subst r. eexists. split; reflexivity.
Qed.

Lemma loadSaved_idempotent_witness :
  exists w2,
    run Examples.browser loadSaved
      (snd (run Examples.browser loadSaved Examples.browser_cold)) =
      (Resolved tt, w2) /\
    st_photos w2 =
      st_photos (snd (run Examples.browser loadSaved Examples.browser_cold)).
Proof.
  apply (loadSaved_idempotent Examples.browser Examples.browser_cold).
  - reflexivity.
  - vm_compute. reflexivity.
Defined.

(* ===================================================================== *)
(** ** Further properties: when a browser load resolves *)
(* ===================================================================== *)

Section BrowserLoad.

Variable env : Env.

Hypothesis reads_not_failed :
  forall f, io_fault env (Filesystem_readFile (Some f) (Some Data)) = None.

Lemma settle_readFile_idle (f : string) (w : World) :
  in_flight w = [] ->
  settle env (Filesystem_readFile (Some f) (Some Data)) w =
  ((fun o : option string =>
      match o with
      | Some d => Resolved d
      | None => Rejected NotFound
      end) (files w !! f),
   log (Awaited (Filesystem_readFile (Some f) (Some Data))) w).
Proof.
  intros Hf. rewrite settle_idle by exact Hf. unfold perform.
  cbn [is_storage perform_ok]. rewrite reads_not_failed.
  change (files (log (Awaited (Filesystem_readFile (Some f) (Some Data))) w))
    with (files w).
  destruct (files w !! f); reflexivity.
Qed.

(** The loop resolves when every file is there. *)
Lemma read_each_total (l : list UserPhoto) (w : World) :
  in_flight w = [] ->
  Forall (fun p => is_Some (files w !! filepath p)) l ->
  exists l' w', run env (read_each l) w = (Resolved l', w').
Proof.
  revert w. induction l as [| p rest IH]; intros w Hf Hall.
  - simpl. eauto.
  - inversion Hall as [| ? ? (d & Hd) Hrest]; subst.
    cbn [read_each]. step_await. rewrite (settle_readFile_idle _ w Hf), Hd.
    cbv beta iota.
    rewrite run_mbind.
    destruct (IH (log (Awaited (Filesystem_readFile (Some (filepath p)) (Some Data))) w)
                Hf Hrest) as (l' & w' & Hr).
    rewrite Hr. simpl. eauto.
Qed.

(** The loop rejects with [NotFound] when a file is missing. *)
Lemma read_each_missing (l : list UserPhoto) (w : World) :
  in_flight w = [] ->
  Exists (fun p => files w !! filepath p = None) l ->
  exists w', run env (read_each l) w = (Rejected NotFound, w').
Proof.
  revert w. induction l as [| p rest IH]; intros w Hf Hex.
  - inversion Hex.
  - cbn [read_each]. step_await. rewrite (settle_readFile_idle _ w Hf).
    destruct (files w !! filepath p) as [d |] eqn:Hd; cbv beta iota.
    + inversion Hex as [? ? Hp | ? ? Hrest]; subst; [congruence |].
      rewrite run_mbind.
      destruct (IH (log (Awaited (Filesystem_readFile (Some (filepath p)) (Some Data))) w)
                  Hf Hrest) as (w' & Hr).
      rewrite Hr. eauto.
    + eauto.
Qed.

End BrowserLoad.

(** X15: on a browser, with nothing in flight and a store that fails no
    read, [loadSaved] resolves when the Blob Store has the file of every
    record of the index, and rejects with [NotFound], leaving the list in
    memory as it was, when the file of some record is missing. *)
Theorem loadSaved_browser_outcome (env : Env) (w : World) (v : string)
    (l : list UserPhoto) :
  browser_hosted env ->
  in_flight w = [] ->
  io_fault env (Preferences_get PHOTO_STORAGE) = None ->
  (forall f, io_fault env (Filesystem_readFile (Some f) (Some Data)) = None) ->
  stored_index w = Some v ->
  Json.parse v = Some l ->
  (Forall (fun p => is_Some (files w !! filepath p)) l ->
   exists w', run env loadSaved w = (Resolved tt, w') /\
              Forall2 (materialized (files w)) l (st_photos w')) /\
  (Exists (fun p => files w !! filepath p = None) l ->
   exists w', run env loadSaved w = (Rejected NotFound, w') /\
              st_photos w' = st_photos w).
Proof.
  unfold browser_hosted. intros Hb Hf Hiog Hior Hv Hl.
  rewrite loadSaved_run, (settle_get_idle env w Hf Hiog), Hv.
  rewrite (parse_index_parsed env v l _ Hl), Hb. cbn [negb].
  set (w0 := log (Awaited (Preferences_get PHOTO_STORAGE)) w).
  split.
  - intros Hall.
    destruct (read_each_total env Hior l w0 Hf Hall) as (l' & w' & Hr).
    rewrite Hr. eexists. split; [reflexivity |]. simpl.
    now destruct (read_each_run env l l' w0 w' Hf Hr) as (H1 & _).
  - intros Hex.
    destruct (read_each_missing env Hior l w0 Hf Hex) as (w' & Hr).
    rewrite Hr. eexists. split; [reflexivity |].
    destruct (read_only_run env _ (read_each_read_only l) w0 _ _ Hf Hr) as (H1 & _).
    exact H1.
Qed.

Lemma loadSaved_browser_outcome_witness :
  (exists w',
     run Examples.browser loadSaved Examples.browser_cold = (Resolved tt, w')) /\
  (exists w',
     run Examples.browser loadSaved MoreExamples.browser_dangling =
       (Rejected NotFound, w') /\
     st_photos w' = [Examples.shot]).
Proof.
  split.
  - destruct (proj1 (loadSaved_browser_outcome Examples.browser Examples.browser_cold
                       _ _ eq_refl eq_refl eq_refl (fun _ => eq_refl) eq_refl
                       (JsonFacts.parse_stringify _)))
      as (w' & H1 & _).
    + repeat constructor; vm_compute; eauto.
    + exists w'. exact H1.
  - apply (proj2 (loadSaved_browser_outcome Examples.browser
                    MoreExamples.browser_dangling
                    _ _ eq_refl eq_refl eq_refl (fun _ => eq_refl) eq_refl
                    (JsonFacts.parse_stringify _))).
    apply Exists_cons_tl, Exists_cons_hd. vm_compute. reflexivity.
Defined.

(* ===================================================================== *)
(** ** Further properties: when the tiers part *)
(* ===================================================================== *)

(** X16: a delete that is rejected keeps the record in memory, yet its
    index write goes through: after a restart on a device the record is
    gone. *)
Theorem rejected_delete_diverges (env env' : Env) (w w1 : World)
    (photo : UserPhoto) (e : JsError) :
  run env (gallery_deletePhoto (render w) photo) w = (Rejected e, w1) ->
  io_fault env (Preferences_set PHOTO_STORAGE
                  (Json.stringify (without photo (st_photos w)))) = None ->
  native_hosted env' ->
  io_fault env' (Preferences_get PHOTO_STORAGE) = None ->
  st_photos w1 = st_photos w /\
  exists w2,
    run env' loadSaved (restart env w1) = (Resolved tt, w2) /\
    st_photos w2 = without photo (st_photos w).
Proof.
  unfold render, usePhotoGallery, gallery_deletePhoto.
  intros Hrun Hios Hn Hiog.
  pose proof (deletePhoto_index_eventually env (st_photos w) photo w Hios) as Hidx.
  rewrite Hrun in Hidx. cbn [snd] in Hidx.
  split.
  - revert Hrun. rewrite deletePhoto_run.
    destruct (settle_frame env
                (Filesystem_deleteFile (filename_of (filepath photo)) (Some Data))
                (issue (Preferences_set PHOTO_STORAGE
                          (Json.stringify (without photo (st_photos w)))) w))
      as (S1 & _).
    destruct (settle env _ _) as [[[] | e0] w0]; [discriminate |].
    intros H. inversion H; subst. exact S1.
  - now apply reload_native.
Qed.

Lemma rejected_delete_diverges_witness :
  st_photos
    (snd (run Examples.device (deletePhoto [Examples.shot] Examples.shot)
            Examples.blob_gone)) = [Examples.shot] /\
  exists w2,
    run Examples.device loadSaved
      (restart Examples.device
         (snd (run Examples.device (deletePhoto [Examples.shot] Examples.shot)
                 Examples.blob_gone))) = (Resolved tt, w2) /\
    st_photos w2 = [].
Proof.
  apply (rejected_delete_diverges Examples.device Examples.device Examples.blob_gone
           (snd (run Examples.device (deletePhoto [Examples.shot] Examples.shot)
                   Examples.blob_gone)) Examples.shot NotFound).
  - vm_compute. reflexivity.
  - reflexivity.
  - reflexivity.
  - reflexivity.
Defined.

(** An index write that the store fails changes nothing. *)
Lemma quiesce_failed_write (env : Env) (k v : string) (e : JsError) (w : World) :
  in_flight w = [Preferences_set k v] ->
  io_fault env (Preferences_set k v) = Some e ->
  preferences (quiesce env w) = preferences w.
Proof.
  intros Hf Hio. unfold quiesce. rewrite Hf. simpl. rewrite Hf.
  unfold perform. simpl. now rewrite Hio.
Qed.

(** X17: a capture-and-save whose index write the store fails still
    resolves with the new record in memory; with nothing else in flight
    the index never changes, so the record is lost at the next restart. *)
Theorem failed_index_write_goes_unnoticed (env : Env) (w w' : World) (e : JsError) :
  in_flight w = [] ->
  run env (gallery_takePhoto (render w)) w = (Resolved tt, w') ->
  io_fault env (Preferences_set PHOTO_STORAGE (Json.stringify (st_photos w'))) = Some e ->
  (exists saved, st_photos w' = saved :: st_photos w) /\
  stored_index (quiesce env w') = stored_index w.
Proof.
  unfold render, usePhotoGallery, gallery_takePhoto.
  intros Hf. rewrite takePhoto_run.
  destruct (run env _ w) as [[saved | e0] w1] eqn:Hq; [| discriminate].
  intros Hr Hio. inversion Hr; subst w'; clear Hr.
  destruct (quiet_run env _ capture_quiet _ _ _ Hq) as (Q1 & (n & Q2) & Q3 & _).
  split; [exists saved; reflexivity |].
  assert (Hfl : in_flight w1 = []) by (rewrite Q2, Hf; apply drop_nil).
  unfold stored_index.
  rewrite (quiesce_failed_write env PHOTO_STORAGE
             (Json.stringify (saved :: st_photos w)) e).
  - simpl. now rewrite Q3.
  - simpl. now rewrite Hfl.
  - exact Hio.
Qed.

Lemma failed_index_write_goes_unnoticed_witness :
  (exists saved,
     st_photos (snd (run MoreExamples.browser_index_down (takePhoto []) Examples.fresh)) =
       saved :: st_photos Examples.fresh) /\
  stored_index
    (quiesce MoreExamples.browser_index_down
       (snd (run MoreExamples.browser_index_down (takePhoto []) Examples.fresh))) =
    stored_index Examples.fresh.
Proof.
  apply (failed_index_write_goes_unnoticed MoreExamples.browser_index_down
           Examples.fresh
           (snd (run MoreExamples.browser_index_down (takePhoto []) Examples.fresh))
           IOError).
  - reflexivity.
  - vm_compute. reflexivity.
  - reflexivity.
Defined.

(* ===================================================================== *)
(** ** Capture, restart, load: the round trip on a browser *)
(* ===================================================================== *)

(** No digit or padding character is a comma. *)
Lemma encode_no_comma (bs : list byte) :
  JsString.contains "," (Base64.encode bs) = false.
Proof.
  assert (Hd : forall n, Ascii.eqb (Base64.digit n) "," = false).
  { intros n. apply Bool.negb_true_iff.
    apply (Base64Facts.digit_forall (fun c => negb (Ascii.eqb c ","))). reflexivity. }
  assert (H : JsString.contains "," (Base64.encode bs) = false /\
              (forall a, JsString.contains "," (Base64.encode (a :: bs)) = false) /\
              (forall a b, JsString.contains "," (Base64.encode (a :: b :: bs)) = false)).
  { induction bs as [| c rest (IH0 & IH1 & IH2)].
    - split; [reflexivity |].
      split; intros; cbn [Base64.encode JsString.contains]; rewrite !Hd; reflexivity.
    - split; [apply IH1 |]. split; intros; [apply IH2 |].
      cbn [Base64.encode JsString.contains]. rewrite !Hd. exact IH0. }
  apply H.
Qed.

Lemma up_to_comma_no_comma (s : string) :
  JsString.contains "," s = false -> Examples.up_to_comma s = s.
Proof.
  induction s as [| c s IH]; [reflexivity |].
  cbn [JsString.contains Examples.up_to_comma].
  destruct (Ascii.eqb c ","); [discriminate |]. intros H. now rewrite IH.
Qed.

(** Of a header, a comma and a payload the browser Filesystem keeps the
    payload. *)
Lemma web_data_payload (header payload : string) :
  JsString.contains "," header = false ->
  JsString.contains "," payload = false ->
  Examples.web_data (header +:+ "," +:+ payload) = payload.
Proof.
  intros Hh Hp. unfold Examples.web_data.
  assert (H : Examples.second_field (header +:+ "," +:+ payload) = Some payload).
  { induction header as [| c header IH].
    - cbn. now rewrite up_to_comma_no_comma.
    - cbn [JsString.contains] in Hh.
      change (String c header +:+ "," +:+ payload)
        with (String c (header +:+ "," +:+ payload)).
      cbn [Examples.second_field].
      destruct (Ascii.eqb c ","); [discriminate |]. now apply IH. }
  now rewrite H.
Qed.

(** The browser Filesystem keeps the base64 text of a reader's data URL. *)
Lemma browser_store_keeps_base64 (b : Blob) :
  JsString.contains "," (blob_type b) = false ->
  stored_as Examples.browser (dataURL b) = Base64.encode (blob_bytes b).
Proof.
  intros Ht.
  replace (dataURL b)
    with (("data:" +:+ blob_type b +:+ ";base64") +:+ "," +:+
          Base64.encode (blob_bytes b))
    by (unfold dataURL; rewrite !append_assoc; reflexivity).
  apply web_data_payload; [| apply encode_no_comma].
  rewrite !contains_append, Ht. reflexivity.
Qed.

(** A browser capture followed by a restart, for any string the reader
    loads and whatever the Filesystem keeps of it. *)
Lemma capture_restart_kept (env : Env) (w : World) (photo : Photo)
    (response : Response) (blob : Blob) (s : string) :
  platform env "hybrid" = false ->
  in_flight w = [] ->
  camera env CAPTURE_OPTIONS = Resolved photo ->
  network env (webPath photo) = Resolved response ->
  body response = Resolved blob ->
  reader env blob = OnLoad (RString s) ->
  io_fault env (Filesystem_writeFile (JsString.ofNumber (clock env) +:+ ".jpeg") s
                  (Some Data)) = None ->
  io_fault env
    (Preferences_set PHOTO_STORAGE
       (Json.stringify ({| filepath := JsString.ofNumber (clock env) +:+ ".jpeg";
                           webviewPath := webPath photo |} :: st_photos w))) = None ->
  exists w1,
    run env (takePhoto (st_photos w)) w = (Resolved tt, w1) /\
    written_data (events_since w w1) =
      [(JsString.ofNumber (clock env) +:+ ".jpeg", s)] /\
    files (restart env w1) =
      <[JsString.ofNumber (clock env) +:+ ".jpeg" := stored_as env s]> (files w) /\
    stored_index (restart env w1) =
      Some (Json.stringify ({| filepath := JsString.ofNumber (clock env) +:+ ".jpeg";
                               webviewPath := webPath photo |} :: st_photos w)).
Proof.
  intros Hb Hf Hcam Hnet Hbody Hread Hiow Hios.
  set (name := JsString.ofNumber (clock env) +:+ ".jpeg") in *.
  set (saved := {| filepath := name; webviewPath := webPath photo |}) in *.
  rewrite takePhoto_run.
  step_await. rewrite (settle_idle env _ w Hf).
  unfold perform at 1. cbn [is_storage perform_ok]. rewrite Hcam.
  step_ask. change (answer env Date_now) with (clock env). cbv beta.
  set (w0 := log (Awaited (Camera_getPhoto CAPTURE_OPTIONS)) w).
  destruct (savePicture_browser_run env photo name s response blob
              w0 Hb Hf Hnet Hbody Hread Hiow)
    as (w' & Hrun & Hfiles & Hfl & Hst & Htr).
  fold name. rewrite Hrun. fold saved.
  set (w1 := issue (Preferences_set PHOTO_STORAGE (Json.stringify (saved :: st_photos w)))
               (set_photos (saved :: st_photos w) w')).
  assert (Hin : in_flight w1 =
                [Preferences_set PHOTO_STORAGE (Json.stringify (saved :: st_photos w))])
    by (subst w1; simpl; now rewrite Hfl).
  destruct (quiesce_single_write env _ _ w1 Hin Hios) as (Hpref & Hq).
  exists w1. split; [reflexivity |]. split; [| split].
  - rewrite (events_since_app w w1
               ([Awaited (Camera_getPhoto CAPTURE_OPTIONS);
                 Awaited (fetch (webPath photo)); Awaited (Response_blob response);
                 Awaited (FileReader_readAsDataURL blob);
                 Awaited (Filesystem_writeFile name s (Some Data));
                 StateSet (saved :: st_photos w);
                 Fired (Preferences_set PHOTO_STORAGE
                          (Json.stringify (saved :: st_photos w)))])).
    + reflexivity.
    + subst w1 w0. simpl. rewrite Htr. simpl. now rewrite <- !app_assoc.
  - unfold restart. cbn [files]. rewrite Hq. subst w1. cbn [files issue set_photos].
    exact Hfiles.
  - exact Hpref.
Qed.

(** A browser [loadSaved] resolves when every indexed file is there. *)
Lemma loadSaved_browser_total (env : Env) (w : World) (l : list UserPhoto) :
  platform env "hybrid" = false ->
  in_flight w = [] ->
  io_fault env (Preferences_get PHOTO_STORAGE) = None ->
  (forall f, io_fault env (Filesystem_readFile (Some f) (Some Data)) = None) ->
  stored_index w = Some (Json.stringify l) ->
  Forall (fun p => is_Some (files w !! filepath p)) l ->
  exists w', run env loadSaved w = (Resolved tt, w').
Proof.
  intros Hb Hf Hiog Hior Hv Hall.
  rewrite loadSaved_run, (settle_get_idle env w Hf Hiog), Hv.
  rewrite (parse_index_parsed env _ l _ (JsonFacts.parse_stringify l)), Hb.
  cbn [negb].
  destruct (read_each_total env Hior l
              (log (Awaited (Preferences_get PHOTO_STORAGE)) w) Hf Hall)
    as (l' & w' & Hr).
  rewrite Hr. eauto.
Qed.

(** C6 (as stated, refuted): on a browser, the data handed to the Blob
    Store write for a capture of the bytes [1, 2, 3] is the data URL
    ["data:image/jpeg;base64,AQID"], not their base64 text ["AQID"]. *)
Lemma browser_capture_hands_data_url :
  let w1 := snd (run Examples.browser (gallery_takePhoto (render Examples.fresh))
                   Examples.fresh) in
  Base64.encode (blob_bytes Examples.jpeg3) = "AQID" /\
  written_data (events_since Examples.fresh w1) =
    [("1700000000000.jpeg", "data:image/jpeg;base64,AQID")] /\
  List.map snd (written_data (events_since Examples.fresh w1)) <>
    [Base64.encode (blob_bytes Examples.jpeg3)].
Proof.
  repeat split; try (vm_compute; reflexivity); vm_compute; discriminate.
Qed.

(** C6 (amended): on a browser, for a capture whose fetched body is [blob]
    and a reader that loads a data URL of it (a header, a comma, the base64
    text of the bytes), capture-and-save resolves and hands that data URL,
    not the bare base64 text, to the Blob Store write under the name
    ["<timestamp>.jpeg"]; the Filesystem keeps of it the base64 text after
    the comma, so the Blob Store holds exactly the base64 encoding of the
    bytes under that name, and after a restart a [loadSaved] that resolves
    yields first a record with that [filepath] whose [webviewPath] is
    ["data:image/jpeg;base64,"] followed by the base64 encoding, which
    decodes back to the bytes.  Starting from an empty gallery, that
    [loadSaved] does resolve, with this record alone. *)
Theorem capture_restart_load (env env' : Env) (w : World) (photo : Photo)
    (response : Response) (blob : Blob) (header : string) :
  browser_hosted env -> browser_hosted env' ->
  in_flight w = [] ->
  camera env CAPTURE_OPTIONS = Resolved photo ->
  network env (webPath photo) = Resolved response ->
  body response = Resolved blob ->
  let payload := Base64.encode (blob_bytes blob) in
  reader env blob = OnLoad (RString (header +:+ "," +:+ payload)) ->
  stored_as env (header +:+ "," +:+ payload) = payload ->
  let name := JsString.ofNumber (clock env) +:+ ".jpeg" in
  let saved := {| filepath := name; webviewPath := webPath photo |} in
  let reloaded :=
    {| filepath := name; webviewPath := Some (JPEG_DATA_PREFIX +:+ payload) |} in
  io_fault env (Filesystem_writeFile name (header +:+ "," +:+ payload) (Some Data))
    = None ->
  io_fault env
    (Preferences_set PHOTO_STORAGE (Json.stringify (saved :: st_photos w))) = None ->
  exists w1,
    run env (gallery_takePhoto (render w)) w = (Resolved tt, w1) /\
    written_data (events_since w w1) = [(name, header +:+ "," +:+ payload)] /\
    files (restart env w1) !! name = Some payload /\
    Base64.decode payload = Some (blob_bytes blob) /\
    (forall w2,
        run env' loadSaved (restart env w1) = (Resolved tt, w2) ->
        exists rest, st_photos w2 = reloaded :: rest) /\
    (st_photos w = [] ->
     io_fault env' (Preferences_get PHOTO_STORAGE) = None ->
     (forall f, io_fault env' (Filesystem_readFile (Some f) (Some Data)) = None) ->
     exists w2,
       run env' loadSaved (restart env w1) = (Resolved tt, w2) /\
       st_photos w2 = [reloaded]).
Proof.
  intros Hb Hb' Hf Hcam Hnet Hbody payload Hread Hstore name saved reloaded
    Hiow Hios.
  unfold browser_hosted in *.
  unfold render, usePhotoGallery, gallery_takePhoto.
  destruct (capture_restart_kept env w photo response blob
              (header +:+ "," +:+ payload) Hb Hf Hcam Hnet Hbody Hread Hiow Hios)
    as (w1 & Hrun & Hwritten & Hfiles & Hidx).
  fold name in Hwritten, Hfiles, Hidx. fold saved in Hidx.
  rewrite Hstore in Hfiles.
  assert (Hname : files (restart env w1) !! name = Some payload)
    by (rewrite Hfiles; apply lookup_insert_eq).
  assert (Hyield : forall w2,
             run env' loadSaved (restart env w1) = (Resolved tt, w2) ->
             exists rest, st_photos w2 = reloaded :: rest /\
                          length rest = length (st_photos w)).
  { intros w2 Hload.
    pose proof (loadSaved_parsed env' (restart env w1) w2
                  (Json.stringify (saved :: st_photos w)) (saved :: st_photos w)
                  eq_refl Hidx (JsonFacts.parse_stringify _) Hload) as H.
    rewrite Hb' in H. inversion H as [| p q l l' (Hfp & d & Hd & Hwp) Hrest]; subst.
    exists l'. change (filepath saved) with name in Hd, Hfp.
    rewrite Hname in Hd. inversion Hd; subst d.
    split; [| symmetry; eapply Forall2_length; eauto].
    destruct q as [fp wp]. simpl in Hfp, Hwp. now subst. }
  exists w1. split; [exact Hrun |]. split; [exact Hwritten |].
  split; [exact Hname |]. split; [apply Base64Facts.decode_encode |]. split.
  - intros w2 Hload. destruct (Hyield w2 Hload) as (rest & Hrest & _). eauto.
  - intros Hempty Hiog Hior.
    destruct (loadSaved_browser_total env' (restart env w1) (saved :: st_photos w)
                Hb' eq_refl Hiog Hior Hidx) as (w2 & Hload).
    { rewrite Hempty. constructor; [| constructor].
      change (filepath saved) with name. rewrite Hname. eauto. }
    exists w2. split; [exact Hload |].
    destruct (Hyield w2 Hload) as (rest & Hrest & Hlen).
    rewrite Hempty in Hlen. destruct rest; [exact Hrest | discriminate].
Qed.

Lemma capture_restart_load_witness :
  exists w1,
    run Examples.browser (gallery_takePhoto (render Examples.fresh)) Examples.fresh =
      (Resolved tt, w1) /\
    written_data (events_since Examples.fresh w1) =
      [("1700000000000.jpeg", "data:image/jpeg;base64" +:+ "," +:+ "AQID")] /\
    files (restart Examples.browser w1) !! "1700000000000.jpeg" = Some "AQID" /\
    exists w2,
      run Examples.browser loadSaved (restart Examples.browser w1) = (Resolved tt, w2) /\
      st_photos w2 =
        [ {| filepath := "1700000000000.jpeg";
             webviewPath := Some "data:image/jpeg;base64,AQID" |} ].
Proof.
  destruct (capture_restart_load Examples.browser Examples.browser Examples.fresh
              {| path := None; webPath := Some "blob:http://localhost/7f3a" |}
              {| body := Resolved Examples.jpeg3 |} Examples.jpeg3
              "data:image/jpeg;base64")
    as (w1 & H1 & H2 & H3 & _ & _ & H6); try reflexivity.
  exists w1. split; [exact H1 |]. split; [exact H2 |]. split; [exact H3 |].
  apply H6; reflexivity.
Defined.

(** With a Filesystem that keeps all the text after the comma of a data
    URL, the reloaded [webviewPath] is likewise the header followed by the
    base64 text of the captured bytes. *)
Example stripping_store_reload :
  let w1 := snd (run Examples.browser_stripping
                   (gallery_takePhoto (render Examples.fresh)) Examples.fresh) in
  let w2 := snd (run Examples.browser_stripping loadSaved
                   (restart Examples.browser_stripping w1)) in
  st_photos w2 =
    [ {| filepath := "1700000000000.jpeg";
         webviewPath :=
           Some (JPEG_DATA_PREFIX +:+ Base64.encode (blob_bytes Examples.jpeg3)) |} ].
Proof. vm_compute. reflexivity. Qed.
